(** * MPF-Nixie firmware (nixie.ino): command protocol and render pipeline

    A shallow embedding of the Arduino sketch [nixie.ino]: the colour
    quantizer [rgbToEnum], the tube store ([tubes], [setTube]), [render],
    the line parser ([rtrim], [ltrim], [parseNLine], [handleLine]) and the
    control loop ([setup], [loop]).

    Conventions.
    - The sketch targets the Arduino Nano (ATmega328P, avr-gcc): [int] is
      16 bits wide, [unsigned long] and [uint32_t] are 32 bits wide.
      Machine integers are values of [Z] with the wrap-around written out
      ([to_int], [to_uint8], [to_uint32]).
    - C strings are [list ascii] without the terminating NUL.
    - The global variables of the sketch are the fields of [Firmware];
      output (serial replies, calls to the EasyNixie driver) is appended
      to the [trace] field, oldest event first. *)

From Stdlib Require Import ZArith NArith Ascii String List Lia Bool.
From stdpp Require Import base list.

#[local] Open Scope Z_scope.

(** ** Machine integers *)

Module CInt.

(** Two's-complement wrap of [z] into a signed integer of [w] bits. *)
Definition wrap_signed (w z : Z) : Z :=
  (z + 2 ^ (w - 1)) mod 2 ^ w - 2 ^ (w - 1).

(** Width of [int] on the AVR target. *)
Definition INT_BITS : Z := 16.

Definition to_int (z : Z) : Z := wrap_signed INT_BITS z.
Definition to_uint8 (z : Z) : Z := z mod 256.
Definition to_uint32 (z : Z) : Z := z mod 2 ^ 32.

(** [a - b] on [unsigned long] (the [millis()] differences). *)
Definition ulong_sub (a b : Z) : Z := to_uint32 (a - b).

End CInt.
Import CInt.

(** ** Config *)

Definition NUM_TUBES : Z := 6.
Definition ATTRACT_DIM : Z := 0.
Definition ATTRACT_MS : Z := 50.
Definition IDLE_PARSE_MS : Z := 30.
(** [sizeof(buf)] for [char buf[192]]. *)
Definition BUF_SIZE : Z := 192.

(** ** State *)

Record TubeState := mkTube {
  digit : Z;
  r : Z; g : Z; b : Z;
  hv : bool; comma : bool;
  dim : Z
}.

(** ** Helpers *)

Definition clamp255 (v : Z) : Z :=
  if v <? 0 then 0 else if v >? 255 then 255 else v.

(** ** Colour quantizer *)

(** The colour macros of [EasyNixie.h], kept symbolic. *)
Inductive Color := BLUE | GREEN | RED | WHITE | RuB | RuG | BuG.

Record Pal := mkPal { pal_r : Z; pal_g : Z; pal_b : Z; ev : Color }.

Definition pal : list Pal :=
  [ mkPal 0 0 255 BLUE;
    mkPal 0 255 0 GREEN;
    mkPal 255 0 0 RED;
    mkPal 255 255 255 WHITE;
    mkPal 255 0 255 RuB;
    mkPal 255 255 0 RuG;
    mkPal 0 255 255 BuG ].

(** First loop of [rgbToEnum]: the exact-match shortcut. *)
Fixpoint exact_match (l : list Pal) (r g b : Z) : option Color :=
  match l with
  | [] => None
  | p :: l' =>
      if (pal_r p =? r) && (pal_g p =? g) && (pal_b p =? b)
      then Some (ev p)
      else exact_match l' r g b
  end.

(** [uint32_t(dr*dr) + uint32_t(dg*dg) + uint32_t(db*db)], where [dr],
    [dg], [db] and the three products are [int]s of [w] bits. *)
Definition dist_at (w : Z) (p : Pal) (r g b : Z) : Z :=
  let dr := wrap_signed w (r - pal_r p) in
  let dg := wrap_signed w (g - pal_g p) in
  let db := wrap_signed w (b - pal_b p) in
  to_uint32 (to_uint32 (to_uint32 (wrap_signed w (dr * dr))
                        + to_uint32 (wrap_signed w (dg * dg)))
             + to_uint32 (wrap_signed w (db * db))).

(** Second loop of [rgbToEnum]: keep the first strictly smaller distance. *)
Fixpoint nearest (w : Z) (l : list Pal) (r g b : Z)
    (bestD : Z) (bestE : Color) : Color :=
  match l with
  | [] => bestE
  | p :: l' =>
      let d := dist_at w p r g b in
      if d <? bestD then nearest w l' r g b d (ev p)
      else nearest w l' r g b bestD bestE
  end.

Definition rgbToEnum_at (w : Z) (r g b : Z) : Color :=
  match exact_match pal r g b with
  | Some e => e
  | None => nearest w pal r g b 4294967295 (* 0xFFFFFFFF *) BLUE
  end.

(** [rgbToEnum] as compiled for the target. *)
Definition rgbToEnum (r g b : Z) : Color := rgbToEnum_at INT_BITS r g b.

(** ** Strings of the C library *)

Module CStr.

Definition code (c : ascii) : Z := Z.of_N (N_of_ascii c).

(** The NUL-terminated string starting at the head of a byte array. *)
Fixpoint cstr (l : list ascii) : list ascii :=
  match l with
  | [] => []
  | c :: l' => if Ascii.eqb c "000" then [] else c :: cstr l'
  end.

Fixpoint drop_while (f : ascii -> bool) (s : list ascii) : list ascii :=
  match s with
  | [] => []
  | c :: s' => if f c then drop_while f s' else s
  end.

Fixpoint take_until (f : ascii -> bool) (s : list ascii) : list ascii :=
  match s with
  | [] => []
  | c :: s' => if f c then [] else c :: take_until f s'
  end.

Fixpoint drop_until (f : ascii -> bool) (s : list ascii) : list ascii :=
  match s with
  | [] => []
  | c :: s' => if f c then s else drop_until f s'
  end.

Definition is_comma (c : ascii) : bool := Ascii.eqb c ",".

(** [strtok_r(s, ",", &save)] on the remaining text [s]: skip leading
    delimiters; no token when the text is exhausted; otherwise the token
    runs to the next delimiter, and [save] is left just behind it. *)
Definition strtok_r (s : list ascii) : option (list ascii) * list ascii :=
  match drop_while is_comma s with
  | [] => (None, [])
  | s' => (Some (take_until is_comma s'), tl (drop_until is_comma s'))
  end.

(** [isspace]: space and the controls HT, LF, VT, FF, CR. *)
Definition isspace (c : ascii) : bool :=
  Ascii.eqb c " " || ((9 <=? code c) && (code c <=? 13)).

Definition isdigit (c : ascii) : bool :=
  (48 <=? code c) && (code c <=? 57).

(** Value of the leading run of decimal digits. *)
Fixpoint digits (acc : Z) (s : list ascii) : Z :=
  match s with
  | [] => acc
  | c :: s' => if isdigit c then digits (acc * 10 + (code c - 48)) s' else acc
  end.

(** [atoi]: skip white space, take an optional sign, read the digits;
    the result is an [int] and wraps to its 16 bits. No digits read: 0. *)
Definition atoi (s : list ascii) : Z :=
  match drop_while isspace s with
  | [] => 0
  | c :: s' =>
      if Ascii.eqb c "-" then to_int (- digits 0 s')
      else if Ascii.eqb c "+" then to_int (digits 0 s')
      else to_int (digits 0 (c :: s'))
  end.

End CStr.
Import CStr.

(** ** Trim helpers *)

Definition is_trail (c : ascii) : bool :=
  Ascii.eqb c "013" || Ascii.eqb c "010" || Ascii.eqb c " " || Ascii.eqb c "009".

Definition is_blank (c : ascii) : bool :=
  Ascii.eqb c " " || Ascii.eqb c "009".

(** [rtrim] cuts the string after its last character that is not CR, LF,
    space or tab. *)
Definition rtrim (s : list ascii) : list ascii :=
  rev (drop_while is_trail (rev s)).

Definition ltrim (s : list ascii) : list ascii := drop_while is_blank s.

(** ** The firmware state and its output *)

(** Calls to the EasyNixie driver and lines printed on the serial port. *)
Inductive Event :=
| SetNixie (number : Z) (color : Color) (voltage comma : bool) (dimming : Z)
| Latch
| Println (s : string).

Record Firmware := mkFirmware {
  tubes : list TubeState;
  gotFirstCommand : bool;
  (** [buf[0 .. blen)] *)
  buf : list ascii;
  lastByteAt : Z;
  lastAttract : Z;
  (** duty cycle last written to [PIN_OUT_EN] by [analogWrite] *)
  brightness : Z;
  (** state of the C library's pseudo-random generator *)
  rng : N;
  trace : list Event
}.

Definition blen (st : Firmware) : Z := Z.of_nat (length (buf st)).

Definition with_tubes (v : list TubeState) (st : Firmware) : Firmware :=
  mkFirmware v (gotFirstCommand st) (buf st) (lastByteAt st) (lastAttract st)
             (brightness st) (rng st) (trace st).
Definition with_gotFirstCommand (v : bool) (st : Firmware) : Firmware :=
  mkFirmware (tubes st) v (buf st) (lastByteAt st) (lastAttract st)
             (brightness st) (rng st) (trace st).
Definition with_buf (v : list ascii) (st : Firmware) : Firmware :=
  mkFirmware (tubes st) (gotFirstCommand st) v (lastByteAt st) (lastAttract st)
             (brightness st) (rng st) (trace st).
Definition with_lastByteAt (v : Z) (st : Firmware) : Firmware :=
  mkFirmware (tubes st) (gotFirstCommand st) (buf st) v (lastAttract st)
             (brightness st) (rng st) (trace st).
Definition with_lastAttract (v : Z) (st : Firmware) : Firmware :=
  mkFirmware (tubes st) (gotFirstCommand st) (buf st) (lastByteAt st) v
             (brightness st) (rng st) (trace st).
Definition with_rng (v : N) (st : Firmware) : Firmware :=
  mkFirmware (tubes st) (gotFirstCommand st) (buf st) (lastByteAt st)
             (lastAttract st) (brightness st) v (trace st).
Definition emit (es : list Event) (st : Firmware) : Firmware :=
  mkFirmware (tubes st) (gotFirstCommand st) (buf st) (lastByteAt st)
             (lastAttract st) (brightness st) (rng st) (trace st ++ es).

Definition println (s : string) : Firmware -> Firmware := emit [Println s].

(** [analogWrite(PIN_OUT_EN, dim)] *)
Definition setBrightness (dim : Z) (st : Firmware) : Firmware :=
  mkFirmware (tubes st) (gotFirstCommand st) (buf st) (lastByteAt st)
             (lastAttract st) dim (rng st) (trace st).

Definition zeroTube : TubeState := mkTube 0 0 0 0 false false 0.

#[global] Instance TubeState_inhabited : Inhabited TubeState :=
  populate zeroTube.

(** [setTube]: the store is written only when [i < NUM_TUBES]. *)
Definition setTube (i d r g b : Z) (hv comma : bool) (dim : Z)
    (st : Firmware) : Firmware :=
  if i <? NUM_TUBES
  then with_tubes (<[Z.to_nat i := mkTube d r g b hv comma dim]> (tubes st)) st
  else st.

(** ** Render (farthest -> nearest, then latch) *)

Definition shown (t : TubeState) : Z :=
  if hv t && (digit t <=? 9) then digit t else 0.

Definition SetNixie_of (t : TubeState) : Event :=
  SetNixie (shown t) (rgbToEnum (r t) (g t) (b t)) (hv t) (comma t) (dim t).

(** The indices [NUM_TUBES - 1] down to [0]. *)
Definition render_order : list nat := rev (seq 0 (Z.to_nat NUM_TUBES)).

Definition render (st : Firmware) : Firmware :=
  emit (map (fun i => SetNixie_of (tubes st !!! i)) render_order ++ [Latch]) st.

(** ** Parse "N,idx,digit,r,g,b,dim" *)

(** A field: the token with its leading spaces and tabs skipped, through
    [atoi]. *)
Definition field_value (tok : list ascii) : Z :=
  atoi (drop_while is_blank tok).

(** The loop reading [n] more fields into [f], one token each; [None]
    when a token is missing. *)
Fixpoint read_fields (n : nat) (save : list ascii) : option (list Z) :=
  match n with
  | O => Some []
  | S n' =>
      match strtok_r save with
      | (None, _) => None
      | (Some tok, save') =>
          match read_fields n' save' with
          | None => None
          | Some fs => Some (field_value tok :: fs)
          end
      end
  end.

Definition parseNLine (p : list ascii) (st : Firmware) : bool * Firmware :=
  let save := snd (strtok_r p) in
  match read_fields 6 save with
  | Some [f0; f1; f2; f3; f4; f5] =>
      let idx := to_uint8 f0 in
      let digit := to_uint8 f1 in
      let r := clamp255 f2 in
      let g := clamp255 f3 in
      let b := clamp255 f4 in
      let dim := to_uint8 f5 in
      if idx >=? NUM_TUBES then (false, st)
      else
        let st := with_gotFirstCommand true st in
        let st := setBrightness dim st in
        let hv := digit <=? 9 in
        let st := setTube idx (if hv then digit else 0) r g b hv false dim st in
        (true, render st)
  | _ => (false, st)
  end.

(** ** Serial line handler *)

Definition str (s : string) : list ascii := list_ascii_of_string s.

(** [handleLine] gets the text of the line, [raw]. In the sketch that text
    lies in [buf] and is edited in place while it is parsed: [rtrim]
    writes NUL over the trailing white space and [strtok_r] over the
    commas. Both callers set [blen] to 0 right after the call, so the
    edited bytes are never read again; the state returned here keeps no
    record of them, and its field [buf] says nothing about the bytes of
    the array until the caller has reset it. *)
Definition handleLine (raw : list ascii) (st : Firmware) : Firmware :=
  let p := ltrim (rtrim raw) in
  match p with
  | [] => st
  | ["4"%char; "2"%char] => println "so long and thanks for all the fish" st
  | ["A"%char] | ["a"%char] =>
      println "Attract mode resumed" (with_gotFirstCommand false st)
  | c :: _ =>
      if Ascii.eqb c "N" || Ascii.eqb c "n" then
        match parseNLine p st with
        | (true, st') => st'
        | (false, st') => println "ERR parse N line" st'
        end
      else st
  end.

(** ** The serial reader and the idle flush of [loop] *)

Definition is_eol (c : ascii) : bool :=
  Ascii.eqb c "010" || Ascii.eqb c "013".

(** [buf[blen]=0; handleLine(buf); blen=0;] *)
Definition dispatch (st : Firmware) : Firmware :=
  with_buf [] (handleLine (cstr (buf st)) st).

(** One turn of the [while (Serial.available())] loop: the byte [c] is
    read and [millis()] returns [now]. *)
Definition readByte (c : ascii) (now : Z) (st : Firmware) : Firmware :=
  let st := with_lastByteAt now st in
  if is_eol c then
    if blen st =? 0 then st else dispatch st
  else if blen st + 1 <? BUF_SIZE then with_buf (buf st ++ [c]) st
  else println "ERR buffer overflow" (with_buf [] st).

Fixpoint serialReader (rx : list (ascii * Z)) (st : Firmware) : Firmware :=
  match rx with
  | [] => st
  | (c, now) :: rx' => serialReader rx' (readByte c now st)
  end.

(** [if (blen>0 && (millis()-lastByteAt)>=IDLE_PARSE_MS) ...] where
    [millis()] returns [now]. *)
Definition idleFlush (now : Z) (st : Firmware) : Firmware :=
  if (blen st >? 0) && (ulong_sub now (lastByteAt st) >=? IDLE_PARSE_MS)
  then dispatch st
  else st.

(** ** Attract mode, [setup] and [loop] *)

(** What one pass of [loop] takes from its environment: the bytes the
    serial port delivers during the pass, each with the [millis()] reading
    that follows it, and the two later [millis()] readings. *)
Record Cycle := mkCycle {
  rx : list (ascii * Z);
  t_idle : Z;
  t_tick : Z
}.

(** The global variables before [setup] runs. *)
Definition boot : Firmware :=
  mkFirmware (replicate (Z.to_nat NUM_TUBES) zeroTube) false [] 0 0 0 0 [].

Section ControlLoop.

(** One call of the C library's [random()]: from the state of the
    generator to the value drawn and the next state. *)
Variable libc_random : N -> N * N.

(** Arduino's [random(howsmall, howbig)]. *)
Definition random (howsmall howbig : Z) (s : N) : Z * N :=
  if howsmall >=? howbig then (howsmall, s)
  else
    let diff := howbig - howsmall in
    let '(v, s') := libc_random s in
    (Z.of_N v mod diff + howsmall, s').

(** [for (uint8_t i=0;i<NUM_TUBES;i++)
      setTube(i, random(0,10), 255, 0, 0, true, false, ATTRACT_DIM);]
    over the indices [idxs]. *)
Fixpoint attractFill (idxs : list nat) (st : Firmware) : Firmware :=
  match idxs with
  | [] => st
  | i :: idxs' =>
      let '(d, s') := random 0 10 (rng st) in
      attractFill idxs'
        (setTube (Z.of_nat i) (to_uint8 d) 255 0 0 true false ATTRACT_DIM
                 (with_rng s' st))
  end.

Definition tube_indices : list nat := seq 0 (Z.to_nat NUM_TUBES).

(** [setup]: [seed] is the generator state left by [randomSeed], [now]
    the final [millis()] reading. *)
Definition setup (seed : N) (now : Z) (st : Firmware) : Firmware :=
  let st := setBrightness ATTRACT_DIM st in
  let st := with_rng seed st in
  let st := attractFill tube_indices st in
  let st := render (render st) in
  with_lastAttract now st.

(** The attract block of [loop]; [millis()] returns [now]. *)
Definition attractTick (now : Z) (st : Firmware) : Firmware :=
  if gotFirstCommand st then st
  else if ulong_sub now (lastAttract st) >=? ATTRACT_MS then
    let st := setBrightness ATTRACT_DIM st in
    let st := attractFill tube_indices st in
    let st := render st in
    with_lastAttract now st
  else st.

Definition loop (c : Cycle) (st : Firmware) : Firmware :=
  attractTick (t_tick c) (idleFlush (t_idle c) (serialReader (rx c) st)).

(** The states the firmware goes through: after [setup], and after each
    pass of [loop]. *)
Inductive reachable : Firmware -> Prop :=
| reachable_setup seed now : reachable (setup seed now boot)
| reachable_loop c st : reachable st -> reachable (loop c st).

End ControlLoop.

(** A line of text as the bytes the serial port delivers at time [now]. *)
Definition bytes_at (now : Z) (s : list ascii) : list (ascii * Z) :=
  map (fun c => (c, now)) s.

(** ** Vocabulary of the statements *)

(** The store has its [NUM_TUBES] entries. *)
Definition store_ok (st : Firmware) : Prop :=
  length (tubes st) = Z.to_nat NUM_TUBES.

(** A token between commas: not empty, no comma inside. *)
Definition tok_ok (t : list ascii) : bool :=
  match t with
  | [] => false
  | _ => forallb (fun c => negb (is_comma c)) t
  end.

(** Tokens joined by single commas. *)
Fixpoint join (toks : list (list ascii)) : list ascii :=
  match toks with
  | [] => []
  | t :: ts =>
      match ts with
      | [] => t
      | _ => t ++ ","%char :: join ts
      end
  end.

(** Exact squared Euclidean distance from a palette entry. *)
Definition dist2 (p : Pal) (r g b : Z) : Z :=
  (r - pal_r p) * (r - pal_r p) + (g - pal_g p) * (g - pal_g p)
  + (b - pal_b p) * (b - pal_b p).

(** [c] is the colour of the lowest-indexed palette entry among those at
    minimal squared distance from [(r, g, b)]. *)
Definition nearest_in_palette (r g b : Z) (c : Color) : Prop :=
  exists (i : nat) (p : Pal),
    pal !! i = Some p /\ c = ev p /\
    (forall (j : nat) (q : Pal), pal !! j = Some q ->
       dist2 p r g b <= dist2 q r g b) /\
    (forall (j : nat) (q : Pal), (j < i)%nat -> pal !! j = Some q ->
       dist2 p r g b < dist2 q r g b).

Definition is_parse_error (e : Event) : bool :=
  match e with
  | Println s => String.eqb s "ERR parse N line"
  | _ => false
  end.

(** The fields other than the trace and the line buffer that a command
    can change: the tube store, the mode flag and the brightness. *)
Definition same_display (st st' : Firmware) : Prop :=
  tubes st' = tubes st /\
  gotFirstCommand st' = gotFirstCommand st /\
  brightness st' = brightness st.

(** A generator for the examples. *)
Definition demo_random (s : N) : N * N := ((s * 7 + 3)%N, N.succ s).

(** A line that [rtrim] and [ltrim] leave as it is. *)
Definition trimmed (s : list ascii) : Prop := ltrim (rtrim s) = s.

(** The directive token of a display update: it starts with N or n. *)
Definition is_N_directive (d : list ascii) : bool :=
  match d with
  | c :: _ => (Ascii.eqb c "N" || Ascii.eqb c "n") && tok_ok d
  | [] => false
  end.

(** What [parseNLine] does once the six fields are read and the index is
    accepted. *)
Definition update_with (f0 f1 f2 f3 f4 f5 : Z) (st : Firmware) : Firmware :=
  let digit := to_uint8 f1 in
  let hv := digit <=? 9 in
  render
    (setTube (to_uint8 f0) (if hv then digit else 0)
             (clamp255 f2) (clamp255 f3) (clamp255 f4) hv false (to_uint8 f5)
             (setBrightness (to_uint8 f5) (with_gotFirstCommand true st))).

(** The tube at index [i] is lit. *)
Definition lit_at (i : nat) (st : Firmware) : Prop :=
  exists t, tubes st !! i = Some t /\ hv t = true.

Definition no_parse_error (es : list Event) : Prop :=
  existsb is_parse_error es = false.

(** A token that does not start, after white space, with a digit or a
    sign. *)
Definition no_leading_number (t : list ascii) : bool :=
  match drop_while isspace (drop_while is_blank t) with
  | [] => true
  | c :: _ => negb (isdigit c || Ascii.eqb c "-" || Ascii.eqb c "+")
  end.

Definition in_byte (z : Z) : Prop := 0 <= z <= 255.

Definition pal_in_byte (p : Pal) : Prop :=
  in_byte (pal_r p) /\ in_byte (pal_g p) /\ in_byte (pal_b p).

Definition full_buffer : Firmware :=
  with_buf (repeat "x"%char 191) boot.

(** A tube as the attract animation leaves it: a digit 0..9, lit, red,
    no comma, the attract brightness. *)
Definition is_attract_tube (t : TubeState) : Prop :=
  exists d : Z, 0 <= d <= 9 /\ t = mkTube d 255 0 0 true false ATTRACT_DIM.

Definition digit_ok (t : TubeState) : Prop := 0 <= digit t <= 9.


(** The pieces of a text between its commas, the empty ones included. *)
Fixpoint split_commas (s : list ascii) : list (list ascii) :=
  match s with
  | [] => [[]]
  | c :: s' =>
      if is_comma c then [] :: split_commas s'
      else match split_commas s' with
           | t :: ts => (c :: t) :: ts
           | [] => [[c]]
           end
  end.

Definition nonempty (t : list ascii) : bool :=
  match t with
  | [] => false
  | _ => true
  end.

(** The tokens [strtok_r] will hand out on a text, in order. *)
Definition tokens (s : list ascii) : list (list ascii) :=
  List.filter nonempty (split_commas s).

(** An entry of the store whose fields fit their C types, with no comma,
    and with digit 0 when it is not lit. *)
Definition tube_wf (t : TubeState) : Prop :=
  digit_ok t /\ in_byte (r t) /\ in_byte (g t) /\ in_byte (b t) /\
  in_byte (dim t) /\ comma t = false /\ (hv t = false -> digit t = 0).

(** The tube the attract animation writes for a drawn value. *)
Definition attract_tube (d : Z) : TubeState :=
  mkTube d 255 0 0 true false ATTRACT_DIM.

(** The digits drawn by the next [n] calls of [random(0,10)], each the
    value of the generator modulo 10, and the generator state they
    leave. *)
Fixpoint draws (libc_random : N -> N * N) (n : nat) (s : N) : list Z * N :=
  match n with
  | O => ([], s)
  | S n' =>
      let '(v, s') := libc_random s in
      let '(ds, s'') := draws libc_random n' s' in
      (Z.of_N v mod 10 :: ds, s'')
  end.

(** The calls and the latch of one [render] of the store [ts]. *)
Definition frame (ts : list TubeState) : list Event :=
  [ SetNixie_of (ts !!! 5%nat); SetNixie_of (ts !!! 4%nat);
    SetNixie_of (ts !!! 3%nat); SetNixie_of (ts !!! 2%nat);
    SetNixie_of (ts !!! 1%nat); SetNixie_of (ts !!! 0%nat); Latch ].

(** A channel value whose distance to 0 and to 255 squares within 16
    bits. *)
Definition mid_range (z : Z) : Prop := 74 <= z <= 181.

(** The tests of [handleLine] on the trimmed line [p]. *)
Definition is_probe (p : list ascii) : bool :=
  match p with
  | [c1; c2] => Ascii.eqb c1 "4" && Ascii.eqb c2 "2"
  | _ => false
  end.

Definition is_resume (p : list ascii) : bool :=
  match p with
  | [c] => Ascii.eqb c "A" || Ascii.eqb c "a"
  | _ => false
  end.

Definition starts_with_N (p : list ascii) : bool :=
  match p with
  | c :: _ => Ascii.eqb c "N" || Ascii.eqb c "n"
  | [] => false
  end.

(** A state shortly before [millis()] rolls over, with a line pending. *)
Definition near_rollover : Firmware :=
  with_lastAttract 4294967290
    (with_lastByteAt 4294967290 (with_buf (str "A") boot)).

(** The bytes of the lines [ls], each followed by the terminator [eol],
    all arriving at time [t]. *)
Definition stream_of (t : Z) (eol : ascii) (ls : list (list ascii))
    : list (ascii * Z) :=
  flat_map (fun l => bytes_at t l ++ [(eol, t)]) ls.

(** A line the framer can hold: no terminator inside, shorter than the
    buffer. *)
Definition line_ok (l : list ascii) : bool :=
  forallb (fun c => negb (is_eol c)) l && (Z.of_nat (length l) <? BUF_SIZE).




(** The six fields of a line: its first six tokens behind the
    directive. *)
Definition fields_of (p : list ascii) : list (list ascii) :=
  take 6 (tl (tokens p)).

(** The entry a display update writes for the digit, colour and dim
    fields read. *)
Definition tube_of_fields (f1 f2 f3 f4 f5 : Z) : TubeState :=
  mkTube (if to_uint8 f1 <=? 9 then to_uint8 f1 else 0)
         (clamp255 f2) (clamp255 f3) (clamp255 f4)
         (to_uint8 f1 <=? 9) false (to_uint8 f5).

(** * Properties *)

(** ** Tokens and fields *)

Section Tokens.

Let no_comma (c : ascii) : bool := negb (is_comma c).

Lemma take_until_comma (t rest : list ascii) :
  forallb no_comma t = true ->
  take_until is_comma (t ++ ","%char :: rest) = t.
Proof.
  induction t as [|c t IH]; simpl; [reflexivity|].
  intros [Hc Ht]%andb_true_iff. unfold no_comma in Hc.
  destruct (is_comma c); [discriminate|]. now rewrite IH.
Qed.

Lemma drop_until_comma (t rest : list ascii) :
  forallb no_comma t = true ->
  drop_until is_comma (t ++ ","%char :: rest) = ","%char :: rest.
Proof.
  induction t as [|c t IH]; simpl; [reflexivity|].
  intros [Hc Ht]%andb_true_iff. unfold no_comma in Hc.
  destruct (is_comma c); [discriminate|]. now apply IH.
Qed.

Lemma take_until_end (t : list ascii) :
  forallb no_comma t = true -> take_until is_comma t = t.
Proof.
  induction t as [|c t IH]; simpl; [reflexivity|].
  intros [Hc Ht]%andb_true_iff. unfold no_comma in Hc.
  destruct (is_comma c); [discriminate|]. now rewrite IH.
Qed.

Lemma drop_until_end (t : list ascii) :
  forallb no_comma t = true -> drop_until is_comma t = [].
Proof.
  induction t as [|c t IH]; simpl; [reflexivity|].
  intros [Hc Ht]%andb_true_iff. unfold no_comma in Hc.
  destruct (is_comma c); [discriminate|]. now apply IH.
Qed.

(** On a comma-joined text [strtok_r] hands out the first token and
    leaves the others joined. *)
Lemma strtok_r_join (t : list ascii) (ts : list (list ascii)) :
  tok_ok t = true -> strtok_r (join (t :: ts)) = (Some t, join ts).
Proof.
  destruct t as [|c t]; [discriminate|].
  intros Hok. change (forallb no_comma (c :: t) = true) in Hok.
  assert (Hc : is_comma c = false).
  { simpl in Hok. apply andb_true_iff in Hok as [Hc _].
    unfold no_comma in Hc. now destruct (is_comma c). }
  unfold strtok_r.
  assert (Hskip : forall rest, drop_while is_comma ((c :: t) ++ rest)
                               = (c :: t) ++ rest).
  { intros rest. simpl. now rewrite Hc. }
  destruct ts as [|t' ts'].
  - cbn [join]. specialize (Hskip []). rewrite app_nil_r in Hskip.
    rewrite Hskip. rewrite (take_until_end _ Hok), (drop_until_end _ Hok).
    reflexivity.
  - change (join ((c :: t) :: t' :: ts'))
      with ((c :: t) ++ ","%char :: join (t' :: ts')).
    rewrite Hskip. cbn [app].
    change (c :: t ++ ","%char :: join (t' :: ts'))
      with ((c :: t) ++ ","%char :: join (t' :: ts')).
    rewrite (take_until_comma _ _ Hok), (drop_until_comma _ _ Hok).
    reflexivity.
Qed.

Lemma strtok_r_nil : strtok_r [] = (None, []).
Proof. reflexivity. Qed.

(** [read_fields] on joined tokens reads the first [n] of them. *)
Lemma read_fields_join (n : nat) (toks : list (list ascii)) :
  forallb tok_ok toks = true ->
  (n <= length toks)%nat ->
  read_fields n (join toks) = Some (map field_value (take n toks)).
Proof.
  revert toks. induction n as [|n IH]; intros toks Hok Hlen.
  - reflexivity.
  - destruct toks as [|t ts]; [simpl in Hlen; lia|].
    simpl in Hok. apply andb_true_iff in Hok as [Ht Hts].
    cbn [read_fields]. rewrite (strtok_r_join _ _ Ht).
    rewrite IH by (simpl in Hlen; auto with lia). reflexivity.
Qed.

(** With fewer than [n] tokens, [read_fields] fails. *)
Lemma read_fields_short (n : nat) (toks : list (list ascii)) :
  forallb tok_ok toks = true ->
  (length toks < n)%nat ->
  read_fields n (join toks) = None.
Proof.
  revert toks. induction n as [|n IH]; intros toks Hok Hlen; [lia|].
  destruct toks as [|t ts].
  - reflexivity.
  - simpl in Hok. apply andb_true_iff in Hok as [Ht Hts].
    cbn [read_fields]. rewrite (strtok_r_join _ _ Ht).
    rewrite IH by (simpl in Hlen; auto with lia). reflexivity.
Qed.

End Tokens.

(** ** The parser on a line of tokens *)

Lemma is_N_directive_tok (d : list ascii) :
  is_N_directive d = true -> tok_ok d = true.
Proof.
  destruct d as [|c d]; [discriminate|].
  unfold is_N_directive. now intros [_ H]%andb_true_iff.
Qed.

Lemma parseNLine_join (d t0 t1 t2 t3 t4 t5 : list ascii)
    (extra : list (list ascii)) (st : Firmware) :
  tok_ok d = true ->
  forallb tok_ok (t0 :: t1 :: t2 :: t3 :: t4 :: t5 :: extra) = true ->
  parseNLine (join (d :: t0 :: t1 :: t2 :: t3 :: t4 :: t5 :: extra)) st =
    if to_uint8 (field_value t0) >=? NUM_TUBES then (false, st)
    else (true, update_with (field_value t0) (field_value t1) (field_value t2)
                            (field_value t3) (field_value t4) (field_value t5)
                            st).
Proof.
  intros Hd Hts. unfold parseNLine.
  rewrite (strtok_r_join _ _ Hd). cbn [snd].
  rewrite (read_fields_join 6 _ Hts) by (simpl; lia).
  cbn [take map]. destruct (to_uint8 (field_value t0) >=? NUM_TUBES); reflexivity.
Qed.

Lemma parseNLine_short (d : list ascii) (toks : list (list ascii))
    (st : Firmware) :
  tok_ok d = true -> forallb tok_ok toks = true -> (length toks < 6)%nat ->
  parseNLine (join (d :: toks)) st = (false, st).
Proof.
  intros Hd Hts Hlen. unfold parseNLine.
  rewrite (strtok_r_join _ _ Hd). cbn [snd].
  now rewrite (read_fields_short 6 _ Hts Hlen).
Qed.

(** A rejected line leaves every global variable as it was. *)
Lemma parseNLine_rejected (p : list ascii) (st : Firmware) :
  fst (parseNLine p st) = false -> snd (parseNLine p st) = st.
Proof.
  unfold parseNLine.
  destruct (read_fields 6 (snd (strtok_r p)))
    as [[|f0 [|f1 [|f2 [|f3 [|f4 [|f5 [|f6 fs]]]]]]]|]; try reflexivity.
  destruct (to_uint8 f0 >=? NUM_TUBES); [reflexivity|discriminate].
Qed.

(** [handleLine] on a line whose trimmed text starts with N or n. *)
Lemma handleLine_N (raw : list ascii) (c : ascii) (p : list ascii)
    (st : Firmware) :
  ltrim (rtrim raw) = c :: p ->
  Ascii.eqb c "N" || Ascii.eqb c "n" = true ->
  handleLine raw st =
    if fst (parseNLine (c :: p) st) then snd (parseNLine (c :: p) st)
    else println "ERR parse N line" (snd (parseNLine (c :: p) st)).
Proof.
  intros Hp Hc. unfold handleLine. rewrite Hp.
  apply orb_true_iff in Hc as [Hc|Hc]; apply Ascii.eqb_eq in Hc; subst c;
    cbn -[parseNLine]; destruct (parseNLine _ st) as [[|] st']; reflexivity.
Qed.

Lemma handleLine_N_join (d : list ascii) (toks : list (list ascii))
    (st : Firmware) :
  is_N_directive d = true -> trimmed (join (d :: toks)) ->
  handleLine (join (d :: toks)) st =
    if fst (parseNLine (join (d :: toks)) st)
    then snd (parseNLine (join (d :: toks)) st)
    else println "ERR parse N line" (snd (parseNLine (join (d :: toks)) st)).
Proof.
  intros Hd Htrim. destruct d as [|c d]; [discriminate|].
  apply andb_true_iff in Hd as [Hc _].
  assert (Hj : exists p, join ((c :: d) :: toks) = c :: p).
  { destruct toks; simpl; eauto. }
  destruct Hj as [p Hj]. rewrite Hj in *.
  now apply handleLine_N.
Qed.

(** ** Frame lemmas *)

Ltac unfold_ops :=
  unfold update_with, render, setTube, setBrightness, println, emit,
    with_tubes, with_gotFirstCommand, with_buf, with_lastByteAt,
    with_lastAttract, with_rng in *.

Lemma parseNLine_lastByteAt (p : list ascii) (t : Z) (st : Firmware) :
  parseNLine p (with_lastByteAt t st) =
    (fst (parseNLine p st), with_lastByteAt t (snd (parseNLine p st))).
Proof.
  unfold parseNLine.
  destruct (read_fields 6 (snd (strtok_r p)))
    as [[|f0 [|f1 [|f2 [|f3 [|f4 [|f5 [|f6 fs]]]]]]]|]; try reflexivity.
  destruct (to_uint8 f0 >=? NUM_TUBES); [reflexivity|].
  cbn [fst snd]. unfold_ops. cbn.
  destruct (to_uint8 f0 <? NUM_TUBES); reflexivity.
Qed.

Lemma handleLine_lastByteAt (raw : list ascii) (t : Z) (st : Firmware) :
  handleLine raw (with_lastByteAt t st) = with_lastByteAt t (handleLine raw st).
Proof.
  unfold handleLine.
  repeat case_match; subst; try reflexivity;
    rewrite parseNLine_lastByteAt in *;
    repeat match goal with
           | H : parseNLine _ st = _ |- _ => rewrite H in *; clear H
           end;
    cbn [fst snd] in *; simplify_eq; reflexivity.
Qed.

(** ** Display-update commands *)

Lemma update_with_fields (f0 f1 f2 f3 f4 f5 : Z) (st : Firmware) :
  to_uint8 f0 < NUM_TUBES ->
  let st' := update_with f0 f1 f2 f3 f4 f5 st in
  let d := to_uint8 f1 in
  tubes st' =
    <[Z.to_nat (to_uint8 f0) :=
        mkTube (if d <=? 9 then d else 0) (clamp255 f2) (clamp255 f3)
               (clamp255 f4) (d <=? 9) false (to_uint8 f5)]> (tubes st) /\
  gotFirstCommand st' = true /\
  brightness st' = to_uint8 f5 /\
  trace st' =
    trace st ++ map (fun i => SetNixie_of (tubes st' !!! i)) render_order
             ++ [Latch].
Proof.
  intros Hidx. unfold_ops. apply Z.ltb_lt in Hidx. rewrite Hidx. cbn.
  repeat split; reflexivity.
Qed.

Lemma to_uint8_id (z : Z) : 0 <= z <= 255 -> to_uint8 z = z.
Proof. intros H. unfold to_uint8. apply Z.mod_small. lia. Qed.

Lemma to_uint8_range (z : Z) : 0 <= to_uint8 z <= 255.
Proof. unfold to_uint8. pose proof (Z.mod_pos_bound z 256). lia. Qed.

(** C1 (defect, evaluated): the index field 256 is not in 0..5, yet the
    line "N,256,5,255,0,0,0" is accepted. The range test sees the index
    only after its conversion to [uint8_t], which turns 256 into 0: tube 0
    is overwritten, the mode flag is set, the brightness is written and no
    parse error is printed. *)
Theorem C1_index_256_overwrites_tube_0 (st : Firmware) :
  let st' := handleLine (str "N,256,5,255,0,0,0") st in
  tubes st' = <[0%nat := mkTube 5 255 0 0 true false 0]> (tubes st) /\
  gotFirstCommand st' = true /\
  brightness st' = 0 /\
  exists es, trace st' = trace st ++ es /\ no_parse_error es.
Proof.
  repeat split. eexists. split; reflexivity.
Qed.

(** What does hold of the index check: an index field that, as a byte, is
    6 or more is rejected with the parse-error line and nothing else
    changes. *)
Lemma index_byte_out_of_range_rejected (d t0 t1 t2 t3 t4 t5 : list ascii)
    (extra : list (list ascii)) (st : Firmware) :
  let line := join (d :: t0 :: t1 :: t2 :: t3 :: t4 :: t5 :: extra) in
  is_N_directive d = true ->
  forallb tok_ok (t0 :: t1 :: t2 :: t3 :: t4 :: t5 :: extra) = true ->
  trimmed line ->
  NUM_TUBES <= to_uint8 (field_value t0) ->
  handleLine line st = println "ERR parse N line" st.
Proof.
  intros line Hd Hts Htrim Hidx. subst line.
  rewrite (handleLine_N_join _ _ _ Hd Htrim).
  rewrite (parseNLine_join _ _ _ _ _ _ _ _ _ (is_N_directive_tok _ Hd) Hts).
  apply Z.geb_le in Hidx. rewrite Hidx. reflexivity.
Qed.

(** C2 (as stated, refuted): after "N,0,15,10,10,10,0" tube 0 is not lit. *)
Lemma C2_counterexample :
  let st' := handleLine (str "N,0,15,10,10,10,0") boot in
  ~ (lit_at 0 st' /\ no_parse_error (trace st')).
Proof.
  intros st' [[t [Ht Hlit]] _]. vm_compute in Ht.
  injection Ht as <-. discriminate Hlit.
Qed.

(** C2 (amended): processing "N,0,15,10,10,10,0" succeeds without an
    error report, and tube 0 ends up not lit: it is stored with digit 0,
    lit flag off, colour (10,10,10) and brightness 0, and [render] emits
    for it digit 0 with the lit flag off. The other tubes keep their
    state. *)
Theorem C2_digit_15_stored_unlit (st : Firmware) :
  store_ok st ->
  let st' := handleLine (str "N,0,15,10,10,10,0") st in
  tubes st' !! 0%nat = Some (mkTube 0 10 10 10 false false 0) /\
  ~ lit_at 0 st' /\
  (forall i : nat, i <> 0%nat -> tubes st' !! i = tubes st !! i) /\
  gotFirstCommand st' = true /\
  trace st' =
    trace st ++
      [ SetNixie_of (tubes st !!! 5%nat); SetNixie_of (tubes st !!! 4%nat);
        SetNixie_of (tubes st !!! 3%nat); SetNixie_of (tubes st !!! 2%nat);
        SetNixie_of (tubes st !!! 1%nat);
        SetNixie 0 (rgbToEnum 10 10 10) false false 0; Latch ].
Proof.
  intros Hok st'.
  assert (Ht : tubes st' = <[0%nat := mkTube 0 10 10 10 false false 0]> (tubes st))
    by reflexivity.
  assert (H0 : tubes st' !! 0%nat = Some (mkTube 0 10 10 10 false false 0)).
  { rewrite Ht. apply list_lookup_insert_eq. rewrite Hok. vm_compute. lia. }
  split; [exact H0|]. split.
  { intros [t [Hl Hhv]]. rewrite H0 in Hl. injection Hl as <-. discriminate. }
  split.
  { intros i Hi. rewrite Ht. now apply list_lookup_insert_ne. }
  split; [reflexivity|].
  change (trace st') with
    (trace st ++ map (fun i => SetNixie_of (tubes st' !!! i)) render_order
              ++ [Latch]).
  f_equal. rewrite Ht. unfold store_ok in Hok.
  destruct (tubes st) as [|t0 ts]; [discriminate Hok|]. reflexivity.
Qed.

Lemma C2_digit_15_stored_unlit_witness :
  store_ok boot /\
  tubes (handleLine (str "N,0,15,10,10,10,0") boot) !! 0%nat
    = Some (mkTube 0 10 10 10 false false 0).
Proof.
  split; [reflexivity|].
  apply (C2_digit_15_stored_unlit boot). reflexivity.
Defined.

Lemma field_value_no_number (t : list ascii) :
  no_leading_number t = true -> field_value t = 0.
Proof.
  unfold no_leading_number, field_value, atoi.
  destruct (drop_while isspace (drop_while is_blank t)) as [|c s];
    [reflexivity|].
  intros H. apply negb_true_iff in H.
  apply orb_false_iff in H as [H Hplus].
  apply orb_false_iff in H as [Hdig Hminus].
  rewrite Hminus, Hplus. cbn [digits]. rewrite Hdig. reflexivity.
Qed.


(** An accepted line is [update_with] on the fields read. *)
Lemma parseNLine_accepted (p : list ascii) (st : Firmware) :
  fst (parseNLine p st) = true ->
  exists f0 f1 f2 f3 f4 f5 : Z,
    to_uint8 f0 < NUM_TUBES /\
    snd (parseNLine p st) = update_with f0 f1 f2 f3 f4 f5 st.
Proof.
  unfold parseNLine.
  destruct (read_fields 6 (snd (strtok_r p)))
    as [[|f0 [|f1 [|f2 [|f3 [|f4 [|f5 [|f6 fs]]]]]]]|]; try discriminate.
  rewrite Z.geb_leb, Z.leb_antisym.
  destruct (to_uint8 f0 <? NUM_TUBES) eqn:Hidx; [|discriminate].
  intros _. apply Z.ltb_lt in Hidx. now exists f0, f1, f2, f3, f4, f5.
Qed.

(** ** Render *)

(** C5: one [render] emits one driver call per tube, for the tubes 5, 4,
    3, 2, 1, 0 in this order, each with the blank-clamped digit, the
    quantized colour, the lit flag, the comma flag and the brightness of
    that tube, and then exactly one latch; it changes nothing else. *)
Theorem C5_render_farthest_first_then_latch (st : Firmware) :
  let calls :=
    [ SetNixie_of (tubes st !!! 5%nat); SetNixie_of (tubes st !!! 4%nat);
      SetNixie_of (tubes st !!! 3%nat); SetNixie_of (tubes st !!! 2%nat);
      SetNixie_of (tubes st !!! 1%nat); SetNixie_of (tubes st !!! 0%nat) ] in
  trace (render st) = trace st ++ calls ++ [Latch] /\
  render st = emit (calls ++ [Latch]) st /\
  forall t : TubeState,
    SetNixie_of t =
      SetNixie (if hv t && (digit t <=? 9) then digit t else 0)
               (rgbToEnum (r t) (g t) (b t)) (hv t) (comma t) (dim t).
Proof. repeat split. Qed.

(** ** Colour quantizer *)

(** An input equal to a palette entry returns that entry, whatever the
    width of [int]. *)
Lemma rgbToEnum_at_exact (w : Z) (p : Pal) :
  In p pal -> rgbToEnum_at w (pal_r p) (pal_g p) (pal_b p) = ev p.
Proof.
  intros Hp. cbn in Hp.
  repeat (destruct Hp as [<-|Hp]; [reflexivity|]). destruct Hp.
Qed.

Lemma rgbToEnum_exact (p : Pal) :
  In p pal -> rgbToEnum (pal_r p) (pal_g p) (pal_b p) = ev p.
Proof. apply rgbToEnum_at_exact. Qed.

Lemma pal_entries_in_byte : Forall pal_in_byte pal.
Proof. repeat constructor; cbn; lia. Qed.

Section WideInt.

(** An [int] of at least 17 bits holds every square of a byte
    difference. *)
Variable w : Z.
Hypothesis Hw : 17 <= w.

Lemma wrap_signed_small (z : Z) :
  - 65536 <= z < 65536 -> wrap_signed w z = z.
Proof.
  intros Hz. unfold wrap_signed.
  assert (Hp : 2 ^ 16 <= 2 ^ (w - 1)) by (apply Z.pow_le_mono_r; lia).
  assert (Hd : 2 ^ w = 2 * 2 ^ (w - 1)).
  { replace w with (Z.succ (w - 1)) at 1 by lia.
    apply Z.pow_succ_r. lia. }
  change (2 ^ 16) with 65536 in Hp.
  rewrite Z.mod_small by lia. lia.
Qed.

Lemma dist_at_exact (p : Pal) (r g b : Z) :
  pal_in_byte p -> in_byte r -> in_byte g -> in_byte b ->
  dist_at w p r g b = dist2 p r g b.
Proof.
  unfold pal_in_byte, in_byte, dist_at, dist2.
  intros (Hr & Hg & Hb) Hr' Hg' Hb'.
  rewrite !(wrap_signed_small (_ - _)) by lia.
  assert (Hsq : forall x, - 255 <= x <= 255 -> 0 <= x * x <= 65025) by nia.
  pose proof (Hsq (r - pal_r p) ltac:(lia)).
  pose proof (Hsq (g - pal_g p) ltac:(lia)).
  pose proof (Hsq (b - pal_b p) ltac:(lia)).
  rewrite !wrap_signed_small by lia.
  unfold to_uint32. change (2 ^ 32) with 4294967296.
  rewrite (Z.mod_small ((r - pal_r p) * (r - pal_r p))) by lia.
  rewrite (Z.mod_small ((g - pal_g p) * (g - pal_g p))) by lia.
  rewrite (Z.mod_small ((b - pal_b p) * (b - pal_b p))) by lia.
  rewrite (Z.mod_small ((r - pal_r p) * (r - pal_r p)
                        + (g - pal_g p) * (g - pal_g p))) by lia.
  apply Z.mod_small. lia.
Qed.

(** The scan keeps the colour it came with when no entry of [l] is
    strictly nearer than [bestD]; otherwise it ends on the first entry
    of [l] at the minimal distance. *)
Lemma nearest_first_minimum (r g b : Z) (l : list Pal) :
  in_byte r -> in_byte g -> in_byte b -> Forall pal_in_byte l ->
  forall (bestD : Z) (bestE : Color),
    (nearest w l r g b bestD bestE = bestE /\
     forall (j : nat) (q : Pal), l !! j = Some q -> bestD <= dist2 q r g b)
    \/
    (exists (i : nat) (p : Pal),
       l !! i = Some p /\ nearest w l r g b bestD bestE = ev p /\
       dist2 p r g b < bestD /\
       (forall (j : nat) (q : Pal), l !! j = Some q ->
          dist2 p r g b <= dist2 q r g b) /\
       (forall (j : nat) (q : Pal), (j < i)%nat -> l !! j = Some q ->
          dist2 p r g b < dist2 q r g b)).
Proof.
  intros Hr Hg Hb Hl. induction Hl as [|p l Hp Hl IH]; intros bestD bestE.
  - left. split; [reflexivity|]. intros j q Hq. discriminate Hq.
  - cbn [nearest]. rewrite (dist_at_exact p r g b Hp Hr Hg Hb).
    destruct (dist2 p r g b <? bestD) eqn:Hlt.
    + apply Z.ltb_lt in Hlt.
      destruct (IH (dist2 p r g b) (ev p))
        as [[Heq Hall]|(i & p' & Hi & Heq & Hd & Hmin & Hfirst)].
      * right. exists 0%nat, p. repeat split; auto.
        -- intros [|j] q Hq; cbn in Hq; [injection Hq as <-; lia|eauto].
        -- intros j q Hj. lia.
      * right. exists (S i), p'. repeat split; auto; try lia.
        -- intros [|j] q Hq; cbn in Hq; [injection Hq as <-; lia|eauto].
        -- intros [|j] q Hj Hq; cbn in Hq;
             [injection Hq as <-; lia|apply (Hfirst j); [lia|exact Hq]].
    + apply Z.ltb_ge in Hlt.
      destruct (IH bestD bestE)
        as [[Heq Hall]|(i & p' & Hi & Heq & Hd & Hmin & Hfirst)].
      * left. split; [exact Heq|].
        intros [|j] q Hq; cbn in Hq; [injection Hq as <-; lia|eauto].
      * right. exists (S i), p'. repeat split; auto.
        -- intros [|j] q Hq; cbn in Hq; [injection Hq as <-; lia|eauto].
        -- intros [|j] q Hj Hq; cbn in Hq;
             [injection Hq as <-; lia|apply (Hfirst j); [lia|exact Hq]].
Qed.

End WideInt.

Lemma exact_match_first (l : list Pal) (r g b : Z) (e : Color) :
  exact_match l r g b = Some e ->
  exists (i : nat) (p : Pal),
    l !! i = Some p /\ e = ev p /\
    (pal_r p = r /\ pal_g p = g /\ pal_b p = b) /\
    forall (j : nat) (q : Pal), (j < i)%nat -> l !! j = Some q ->
      ~ (pal_r q = r /\ pal_g q = g /\ pal_b q = b).
Proof.
  induction l as [|p l IH]; [discriminate|]. cbn [exact_match].
  destruct ((pal_r p =? r) && (pal_g p =? g) && (pal_b p =? b)) eqn:Hp.
  - intros [= <-]. exists 0%nat, p.
    apply andb_true_iff in Hp as [Hp Hb]. apply andb_true_iff in Hp as [Hr Hg].
    apply Z.eqb_eq in Hr, Hg, Hb.
    repeat split; auto. intros j q Hj. lia.
  - intros He. destruct (IH He) as (i & p' & Hi & Hev & Hrgb & Hfirst).
    exists (S i), p'. repeat split; try tauto.
    intros [|j] q Hj Hq; cbn in Hq.
    + injection Hq as <-. intros (Hr & Hg & Hb).
      apply Z.eqb_eq in Hr, Hg, Hb. rewrite Hr, Hg, Hb in Hp. discriminate Hp.
    + apply (Hfirst j); [lia|exact Hq].
Qed.

Lemma dist2_nonneg (p : Pal) (r g b : Z) : 0 <= dist2 p r g b.
Proof.
  unfold dist2.
  pose proof (Z.square_nonneg (r - pal_r p)).
  pose proof (Z.square_nonneg (g - pal_g p)).
  pose proof (Z.square_nonneg (b - pal_b p)). lia.
Qed.

Lemma dist2_zero (p : Pal) (r g b : Z) :
  dist2 p r g b <= 0 -> pal_r p = r /\ pal_g p = g /\ pal_b p = b.
Proof.
  unfold dist2. intros H.
  pose proof (Z.square_nonneg (r - pal_r p)) as Hr.
  pose proof (Z.square_nonneg (g - pal_g p)) as Hg.
  pose proof (Z.square_nonneg (b - pal_b p)) as Hb.
  assert (Hr0 : (r - pal_r p) * (r - pal_r p) = 0) by lia.
  assert (Hg0 : (g - pal_g p) * (g - pal_g p) = 0) by lia.
  assert (Hb0 : (b - pal_b p) * (b - pal_b p) = 0) by lia.
  apply Z.mul_eq_0 in Hr0, Hg0, Hb0. lia.
Qed.

(** With an [int] of 17 bits or more, [rgbToEnum] is the nearest-colour
    map with ties going to the lowest index. *)
Lemma rgbToEnum_at_wide_nearest (w r g b : Z) :
  17 <= w -> in_byte r -> in_byte g -> in_byte b ->
  nearest_in_palette r g b (rgbToEnum_at w r g b).
Proof.
  intros Hw Hr Hg Hb. unfold rgbToEnum_at, nearest_in_palette.
  destruct (exact_match pal r g b) as [e|] eqn:He.
  - destruct (exact_match_first _ _ _ _ _ He)
      as (i & p & Hi & Hev & (Hpr & Hpg & Hpb) & Hfirst).
    exists i, p. split; [exact Hi|]. split; [exact Hev|].
    assert (H0 : dist2 p r g b = 0) by (unfold dist2; subst r g b; lia).
    rewrite H0. split.
    + intros j q _. apply dist2_nonneg.
    + intros j q Hj Hq. pose proof (dist2_nonneg q r g b).
      destruct (Z.eq_dec (dist2 q r g b) 0) as [Hz|Hz]; [|lia].
      exfalso. apply (Hfirst j q Hj Hq). apply dist2_zero. lia.
  - destruct (nearest_first_minimum w Hw r g b pal Hr Hg Hb
                pal_entries_in_byte 4294967295 BLUE)
      as [[_ Hall]|(i & p & Hi & Heq & _ & Hmin & Hfirst)].
    + exfalso. specialize (Hall 0%nat (mkPal 0 0 255 BLUE) eq_refl).
      unfold dist2, in_byte in *. cbn in Hall. nia.
    + exists i, p. auto.
Qed.

(** C4 (defect, evaluated): on the 16-bit [int] of the target the squares
    [dr*dr], [dg*dg], [db*db] overflow for differences of 182 and more, so
    the distances compared are not the squared distances. For orange,
    (255,165,0), the code computes 7078 for [BuG] (cyan), whose squared
    distance is 138150, and 8100 for [RuG] (yellow), and so answers [BuG]
    although [RuG] is the nearest palette entry. *)
Theorem C4_orange_quantized_to_cyan :
  rgbToEnum 255 165 0 = BuG /\
  dist_at INT_BITS (mkPal 0 255 255 BuG) 255 165 0 = 7078 /\
  dist2 (mkPal 0 255 255 BuG) 255 165 0 = 138150 /\
  dist_at INT_BITS (mkPal 255 255 0 RuG) 255 165 0 = 8100 /\
  dist2 (mkPal 255 255 0 RuG) 255 165 0 = 8100 /\
  ~ nearest_in_palette 255 165 0 (rgbToEnum 255 165 0) /\
  nearest_in_palette 255 165 0 RuG.
Proof.
  do 5 (split; [reflexivity|]). split.
  - change (rgbToEnum 255 165 0) with BuG.
    intros (i & p & Hi & Hev & Hmin & _).
    specialize (Hmin 5%nat (mkPal 255 255 0 RuG) eq_refl).
    do 7 (destruct i as [|i]; [injection Hi as <-; try discriminate Hev|]);
      [unfold dist2 in Hmin; cbn in Hmin; lia|discriminate Hi].
  - change RuG with (rgbToEnum_at 32 255 165 0).
    apply rgbToEnum_at_wide_nearest; unfold in_byte; lia.
Qed.

(** ** The line framer *)

Lemma parseNLine_buf (p : list ascii) (v : list ascii) (st : Firmware) :
  parseNLine p (with_buf v st) =
    (fst (parseNLine p st), with_buf v (snd (parseNLine p st))).
Proof.
  unfold parseNLine.
  destruct (read_fields 6 (snd (strtok_r p)))
    as [[|f0 [|f1 [|f2 [|f3 [|f4 [|f5 [|f6 fs]]]]]]]|]; try reflexivity.
  destruct (to_uint8 f0 >=? NUM_TUBES); [reflexivity|].
  cbn [fst snd]. unfold_ops. cbn.
  destruct (to_uint8 f0 <? NUM_TUBES); reflexivity.
Qed.

Lemma handleLine_buf (raw v : list ascii) (st : Firmware) :
  handleLine raw (with_buf v st) = with_buf v (handleLine raw st).
Proof.
  unfold handleLine.
  repeat case_match; subst; try reflexivity;
    rewrite parseNLine_buf in *;
    repeat match goal with
           | H : parseNLine _ st = _ |- _ => rewrite H in *; clear H
           end;
    cbn [fst snd] in *; simplify_eq; reflexivity.
Qed.

Lemma handleLine_keeps_lastByteAt (raw : list ascii) (st : Firmware) :
  lastByteAt (handleLine raw st) = lastByteAt st.
Proof.
  replace st with (with_lastByteAt (lastByteAt st) st) at 1
    by (now destruct st).
  now rewrite handleLine_lastByteAt.
Qed.

Lemma blen_zero (st : Firmware) : (blen st =? 0) = true <-> buf st = [].
Proof.
  unfold blen. rewrite Z.eqb_eq. destruct (buf st); cbn; split;
    (reflexivity || discriminate || lia).
Qed.

Lemma readByte_eol (c : ascii) (t : Z) (st : Firmware) :
  is_eol c = true -> buf st <> [] ->
  readByte c t st = dispatch (with_lastByteAt t st).
Proof.
  intros Hc Hbuf. unfold readByte. rewrite Hc.
  destruct (blen (with_lastByteAt t st) =? 0) eqn:Hb; [|reflexivity].
  apply blen_zero in Hb. contradiction.
Qed.

(** C7: in a pass of [loop] that finds the buffer non-empty when the time
    since the last byte has reached [IDLE_PARSE_MS], the buffered text is
    handed to [handleLine] and the buffer is emptied, exactly as the
    arrival of a line terminator would do (which, besides, would record
    its own arrival time). *)
Theorem C7_idle_flush_as_if_terminated (libc_random : N -> N * N)
    (st : Firmware) (now : Z) (c : ascii) (t : Z) :
  buf st <> [] ->
  IDLE_PARSE_MS <= ulong_sub now (lastByteAt st) ->
  is_eol c = true ->
  idleFlush now st = with_buf [] (handleLine (cstr (buf st)) st) /\
  buf (idleFlush now st) = [] /\
  readByte c t st = with_lastByteAt t (idleFlush now st) /\
  forall tk : Z,
    loop libc_random (mkCycle [] now tk) st =
      attractTick libc_random tk
        (with_buf [] (handleLine (cstr (buf st)) st)).
Proof.
  intros Hbuf Hidle Hc.
  assert (Hflush : idleFlush now st = dispatch st).
  { unfold idleFlush. apply Z.geb_le in Hidle. rewrite Hidle, andb_true_r.
    destruct (blen st >? 0) eqn:Hb; [reflexivity|].
    exfalso. apply Hbuf. apply blen_zero. unfold blen in *.
    apply Z.eqb_eq. lia. }
  split; [exact Hflush|]. split; [now rewrite Hflush|]. split.
  - rewrite Hflush, (readByte_eol c t st Hc Hbuf). unfold dispatch.
    change (buf (with_lastByteAt t st)) with (buf st).
    rewrite handleLine_lastByteAt. reflexivity.
  - intros tk. unfold loop. cbn [rx t_idle t_tick serialReader].
    now rewrite Hflush.
Qed.

Lemma C7_idle_flush_as_if_terminated_witness :
  let st := serialReader (bytes_at 100 (str "N,2,5,255,0,0,0")) boot in
  buf st <> [] /\
  buf (idleFlush 130 st) = [] /\
  readByte "010" 130 st = with_lastByteAt 130 (idleFlush 130 st).
Proof.
  intros st.
  assert (Hbuf : buf st <> []) by discriminate.
  assert (Hidle : IDLE_PARSE_MS <= ulong_sub 130 (lastByteAt st))
    by (vm_compute; discriminate).
  split; [exact Hbuf|].
  pose proof (C7_idle_flush_as_if_terminated demo_random st 130 "010" 130
                Hbuf Hidle eq_refl) as (_ & Hempty & Hsame & _).
  split; [exact Hempty|exact Hsame].
Defined.

(** Bytes that are no terminators pile up in the buffer while room
    remains; the terminator that follows dispatches all of them. *)
Lemma serialReader_line (rx : list (ascii * Z)) (eol : ascii) (t : Z)
    (st : Firmware) :
  forallb (fun ct => negb (is_eol (fst ct))) rx = true ->
  blen st + Z.of_nat (length rx) < BUF_SIZE ->
  buf st ++ map fst rx <> [] ->
  is_eol eol = true ->
  serialReader (rx ++ [(eol, t)]) st =
    with_buf [] (handleLine (cstr (buf st ++ map fst rx))
                            (with_lastByteAt t st)).
Proof.
  revert st. induction rx as [|[c tc] rx IH]; intros st Hrx Hlen Hne Heol.
  - cbn [app serialReader map]. rewrite app_nil_r in *.
    now rewrite (readByte_eol eol t st Heol Hne).
  - cbn [forallb fst] in Hrx. apply andb_true_iff in Hrx as [Hc Hrx].
    apply negb_true_iff in Hc.
    cbn [app serialReader]. cbn [length] in Hlen.
    assert (Hstep : readByte c tc st
                    = with_buf (buf st ++ [c]) (with_lastByteAt tc st)).
    { unfold readByte. rewrite Hc.
      change (blen (with_lastByteAt tc st)) with (blen st).
      destruct (blen st + 1 <? BUF_SIZE) eqn:Hroom; [reflexivity|].
      apply Z.ltb_ge in Hroom. lia. }
    rewrite Hstep. rewrite IH; auto.
    + cbn [map fst buf with_buf with_lastByteAt]. rewrite <- app_assoc.
      cbn [app].
      replace (with_lastByteAt t (with_buf (buf st ++ [c])
                                           (with_lastByteAt tc st)))
        with (with_buf (buf st ++ [c]) (with_lastByteAt t st))
        by reflexivity.
      rewrite handleLine_buf. reflexivity.
    + unfold blen in *. cbn [buf with_buf with_lastByteAt].
      rewrite length_app. cbn [length]. lia.
    + cbn [buf with_buf with_lastByteAt]. destruct (buf st); discriminate.
Qed.

(** C8: a byte that is no terminator and finds the buffer full discards
    the whole buffer and reports the overflow; nothing is handed to the
    parser, so the tube store, the mode flag and the brightness stay as
    they were. The bytes that follow build a fresh line: when its
    terminator arrives, that line, and nothing of the discarded text, is
    handled. *)
Theorem C8_overflow_discards_and_recovers (st : Firmware) (c : ascii)
    (now : Z) (rx : list (ascii * Z)) (eol : ascii) (t : Z) :
  is_eol c = false ->
  BUF_SIZE <= blen st + 1 ->
  forallb (fun ct => negb (is_eol (fst ct))) rx = true ->
  rx <> [] ->
  Z.of_nat (length rx) < BUF_SIZE ->
  is_eol eol = true ->
  let st' := readByte c now st in
  st' = println "ERR buffer overflow" (with_buf [] (with_lastByteAt now st)) /\
  buf st' = [] /\
  trace st' = trace st ++ [Println "ERR buffer overflow"] /\
  same_display st st' /\
  serialReader (rx ++ [(eol, t)]) st' =
    with_buf [] (handleLine (cstr (map fst rx)) (with_lastByteAt t st')).
Proof.
  intros Hc Hfull Hrx Hne Hlen Heol st'.
  assert (Hst' : st' = println "ERR buffer overflow"
                         (with_buf [] (with_lastByteAt now st))).
  { subst st'. unfold readByte. rewrite Hc.
    change (blen (with_lastByteAt now st)) with (blen st).
    destruct (blen st + 1 <? BUF_SIZE) eqn:Hroom; [|reflexivity].
    apply Z.ltb_lt in Hroom. lia. }
  split; [exact Hst'|]. rewrite Hst'.
  split; [reflexivity|]. split; [reflexivity|].
  split; [now repeat split|].
  rewrite (serialReader_line rx eol t _ Hrx); auto.
  cbn. destruct rx; [contradiction|discriminate].
Qed.

Lemma C8_overflow_discards_and_recovers_witness :
  let st' := readByte "y" 10 full_buffer in
  buf st' = [] /\
  serialReader (bytes_at 20 (str "N,2,5,255,0,0,0") ++ [("010"%char, 21)]) st'
  = with_buf [] (handleLine (str "N,2,5,255,0,0,0") (with_lastByteAt 21 st')).
Proof.
  intros st'.
  assert (Hfull : BUF_SIZE <= blen full_buffer + 1)
    by (vm_compute; discriminate).
  assert (Hne : bytes_at 20 (str "N,2,5,255,0,0,0") <> []) by discriminate.
  assert (Hlen : Z.of_nat (length (bytes_at 20 (str "N,2,5,255,0,0,0")))
                 < BUF_SIZE) by reflexivity.
  pose proof (C8_overflow_discards_and_recovers full_buffer "y" 10
                (bytes_at 20 (str "N,2,5,255,0,0,0")) "010" 21
                eq_refl Hfull eq_refl Hne Hlen eq_refl)
    as (_ & Hbuf & _ & _ & Hnext).
  split; [exact Hbuf|exact Hnext].
Defined.

(** ** Attract mode *)


Section AttractProperties.

Variable libc_random : N -> N * N.

Lemma random_0_10 (s : N) : 0 <= fst (random libc_random 0 10 s) <= 9.
Proof.
  unfold random. change (0 >=? 10) with false. cbv beta iota zeta.
  destruct (libc_random s) as [v s']. cbn [fst]. change (10 - 0) with 10.
  pose proof (Z.mod_pos_bound (Z.of_N v) 10). lia.
Qed.

Lemma attractFill_step (i : nat) (idxs : list nat) (st : Firmware) :
  exists (d : Z) (s' : N),
    0 <= d <= 9 /\
    attractFill libc_random (i :: idxs) st =
      attractFill libc_random idxs
        (setTube (Z.of_nat i) d 255 0 0 true false ATTRACT_DIM
                 (with_rng s' st)).
Proof.
  cbn [attractFill]. pose proof (random_0_10 (rng st)) as Hd.
  destruct (random libc_random 0 10 (rng st)) as [d s']. cbn [fst] in Hd.
  exists (to_uint8 d), s'. rewrite to_uint8_id by lia. split; [lia|].
  reflexivity.
Qed.

(** [attractFill] touches the tube store and the generator only. *)
Lemma attractFill_frame (idxs : list nat) (st : Firmware) :
  let st' := attractFill libc_random idxs st in
  gotFirstCommand st' = gotFirstCommand st /\ buf st' = buf st /\
  lastByteAt st' = lastByteAt st /\ lastAttract st' = lastAttract st /\
  brightness st' = brightness st /\ trace st' = trace st /\
  length (tubes st') = length (tubes st).
Proof.
  revert st. induction idxs as [|i idxs IH]; intros st; [now repeat split|].
  destruct (attractFill_step i idxs st) as (d & s' & _ & ->).
  specialize (IH (setTube (Z.of_nat i) d 255 0 0 true false ATTRACT_DIM
                          (with_rng s' st))).
  cbn zeta in IH |- *. unfold setTube in *.
  destruct (Z.of_nat i <? NUM_TUBES); cbn in IH;
    rewrite ?length_insert in IH; exact IH.
Qed.

(** After [attractFill], a tube is an attract tube or, when its index
    was not filled, the tube it was. *)
Lemma attractFill_tubes (idxs : list nat) (st : Firmware) :
  Forall (fun i => Z.of_nat i < NUM_TUBES) idxs ->
  forall (i : nat) (t : TubeState),
    tubes (attractFill libc_random idxs st) !! i = Some t ->
    is_attract_tube t \/ (~ In i idxs /\ tubes st !! i = Some t).
Proof.
  intros Hidxs. revert st.
  induction Hidxs as [|k idxs Hk Hidxs IH]; intros st i t Hi.
  - right. split; [intros []|exact Hi].
  - destruct (attractFill_step k idxs st) as (d & s' & Hd & Heq).
    rewrite Heq in Hi. clear Heq.
    destruct (IH _ i t Hi) as [Ha|[Hnin Hl]]; [now left|].
    unfold setTube in Hl. apply Z.ltb_lt in Hk. rewrite Hk in Hl.
    cbn [tubes with_tubes with_rng] in Hl. rewrite Nat2Z.id in Hl.
    destruct (decide (k = i)) as [->|Hne].
    + left. exists d. split; [exact Hd|].
      pose proof (lookup_lt_Some _ _ _ Hl) as Hlt.
      rewrite length_insert in Hlt.
      rewrite list_lookup_insert_eq in Hl by exact Hlt.
      now injection Hl as <-.
    + right. rewrite list_lookup_insert_ne in Hl by exact Hne.
      split; [|exact Hl]. intros [->|Hin]; [now apply Hne|now apply Hnin].
Qed.

Lemma attractFill_all (st : Firmware) :
  store_ok st ->
  Forall is_attract_tube (tubes (attractFill libc_random tube_indices st)).
Proof.
  intros Hok. apply Forall_lookup_2. intros i t Hi.
  assert (Hidxs : Forall (fun i => Z.of_nat i < NUM_TUBES) tube_indices)
    by (repeat constructor).
  destruct (attractFill_tubes _ st Hidxs i t Hi) as [Ha|[Hnin Hl]];
    [exact Ha|].
  exfalso. apply Hnin. apply lookup_lt_Some in Hl. rewrite Hok in Hl.
  apply in_seq. cbn in Hl |- *. lia.
Qed.

Lemma attractTick_fires (now : Z) (st : Firmware) :
  gotFirstCommand st = false ->
  ATTRACT_MS <= ulong_sub now (lastAttract st) ->
  attractTick libc_random now st =
    with_lastAttract now
      (render (attractFill libc_random tube_indices
                           (setBrightness ATTRACT_DIM st))).
Proof.
  intros Hg Hms. unfold attractTick. rewrite Hg.
  apply Z.geb_le in Hms. now rewrite Hms.
Qed.

End AttractProperties.

(** ** What the parser keeps *)

Lemma parseNLine_keeps_buf (p : list ascii) (st : Firmware) :
  buf (snd (parseNLine p st)) = buf st.
Proof.
  replace st with (with_buf (buf st) st) at 1 by (now destruct st).
  now rewrite parseNLine_buf.
Qed.


Lemma handleLine_tubes (raw : list ascii) (st : Firmware) :
  tubes (handleLine raw st) = tubes st \/
  exists p, tubes (handleLine raw st) = tubes (snd (parseNLine p st)).
Proof.
  unfold handleLine.
  repeat case_match; subst; try (now left);
    right; eexists;
    match goal with
    | H : parseNLine _ st = _ |- _ => rewrite H; reflexivity
    end.
Qed.








Section Invariant.

Variable libc_random : N -> N * N.






End Invariant.

(** ** Mode arbitration *)

Lemma handleLine_resume (a : ascii) (st : Firmware) :
  a = "A"%char \/ a = "a"%char ->
  handleLine [a] st =
    println "Attract mode resumed" (with_gotFirstCommand false st).
Proof. intros [->| ->]; reflexivity. Qed.

Lemma SetNixie_of_attract (t : TubeState) :
  is_attract_tube t -> SetNixie_of t = SetNixie (digit t) RED true false ATTRACT_DIM.
Proof.
  intros (d & Hd & ->). unfold SetNixie_of, shown. cbn.
  assert (Hle : (d <=? 9) = true) by (apply Z.leb_le; lia).
  now rewrite Hle.
Qed.

Section ModeArbiter.

Variable libc_random : N -> N * N.

(** A pass of [loop] with no byte to read and an empty buffer is the
    attract block alone. *)
Lemma loop_quiet (t_idle now : Z) (st : Firmware) :
  buf st = [] ->
  loop libc_random (mkCycle [] t_idle now) st = attractTick libc_random now st.
Proof.
  intros Hbuf. unfold loop, idleFlush, blen. cbn. now rewrite Hbuf.
Qed.

(** Before [ATTRACT_MS] have passed, and whenever a command has been
    received, the attract block does nothing. *)
Lemma attractTick_waits (now : Z) (st : Firmware) :
  gotFirstCommand st = true \/ ulong_sub now (lastAttract st) < ATTRACT_MS ->
  attractTick libc_random now st = st.
Proof.
  intros [Hg|Hms]; unfold attractTick; [now rewrite Hg|].
  destruct (gotFirstCommand st); [reflexivity|].
  apply Z.ltb_lt in Hms. rewrite Z.geb_leb, Z.leb_antisym, Hms. reflexivity.
Qed.

End ModeArbiter.

(** * Further properties of the code *)

(** ** Colour quantizer *)

(** X1: an input equal to one of the seven palette colours is answered
    with exactly that colour. *)
Theorem X1_palette_colours_are_fixed (p : Pal) :
  In p pal -> rgbToEnum (pal_r p) (pal_g p) (pal_b p) = ev p.
Proof. apply rgbToEnum_at_exact. Qed.

Lemma X1_palette_colours_are_fixed_witness : rgbToEnum 255 255 0 = RuG.
Proof.
  apply (X1_palette_colours_are_fixed (mkPal 255 255 0 RuG)).
  cbn. tauto.
Defined.

Lemma to_int_small (z : Z) : - 32768 <= z < 32768 -> to_int z = z.
Proof.
  intros Hz. unfold to_int, wrap_signed, INT_BITS.
  change (2 ^ (16 - 1)) with 32768. change (2 ^ 16) with 65536.
  rewrite Z.mod_small by lia. lia.
Qed.

(** On the 16-bit [int] the distance computed is the squared distance as
    long as no channel differs by more than 181. *)
Lemma dist_at_16_exact (p : Pal) (r g b : Z) :
  - 181 <= r - pal_r p <= 181 ->
  - 181 <= g - pal_g p <= 181 ->
  - 181 <= b - pal_b p <= 181 ->
  dist_at INT_BITS p r g b = dist2 p r g b.
Proof.
  intros Hr Hg Hb. unfold dist_at, dist2. fold to_int.
  rewrite !(to_int_small (_ - _)) by lia.
  assert (Hsq : forall x, - 181 <= x <= 181 -> 0 <= x * x <= 32761) by nia.
  pose proof (Hsq _ Hr). pose proof (Hsq _ Hg). pose proof (Hsq _ Hb).
  rewrite !to_int_small by lia.
  unfold to_uint32. change (2 ^ 32) with 4294967296.
  rewrite (Z.mod_small ((r - pal_r p) * (r - pal_r p))) by lia.
  rewrite (Z.mod_small ((g - pal_g p) * (g - pal_g p))) by lia.
  rewrite (Z.mod_small ((b - pal_b p) * (b - pal_b p))) by lia.
  rewrite (Z.mod_small ((r - pal_r p) * (r - pal_r p)
                        + (g - pal_g p) * (g - pal_g p))) by lia.
  apply Z.mod_small. lia.
Qed.

(** The scan of [nearest] over entries whose computed distance is the
    squared distance. *)
Lemma nearest_scan_exact (w r g b : Z) (l : list Pal) :
  Forall (fun p => dist_at w p r g b = dist2 p r g b) l ->
  forall (bestD : Z) (bestE : Color),
    (nearest w l r g b bestD bestE = bestE /\
     forall (j : nat) (q : Pal), l !! j = Some q -> bestD <= dist2 q r g b)
    \/
    (exists (i : nat) (p : Pal),
       l !! i = Some p /\ nearest w l r g b bestD bestE = ev p /\
       dist2 p r g b < bestD /\
       (forall (j : nat) (q : Pal), l !! j = Some q ->
          dist2 p r g b <= dist2 q r g b) /\
       (forall (j : nat) (q : Pal), (j < i)%nat -> l !! j = Some q ->
          dist2 p r g b < dist2 q r g b)).
Proof.
  induction 1 as [|p l Hp Hl IH]; intros bestD bestE.
  - left. split; [reflexivity|]. intros j q Hq. discriminate Hq.
  - cbn [nearest]. rewrite Hp.
    destruct (dist2 p r g b <? bestD) eqn:Hlt.
    + apply Z.ltb_lt in Hlt.
      destruct (IH (dist2 p r g b) (ev p))
        as [[Heq Hall]|(i & p' & Hi & Heq & Hd & Hmin & Hfirst)].
      * right. exists 0%nat, p. repeat split; auto.
        -- intros [|j] q Hq; cbn in Hq; [injection Hq as <-; lia|eauto].
        -- intros j q Hj. lia.
      * right. exists (S i), p'. repeat split; auto; try lia.
        -- intros [|j] q Hq; cbn in Hq; [injection Hq as <-; lia|eauto].
        -- intros [|j] q Hj Hq; cbn in Hq;
             [injection Hq as <-; lia|apply (Hfirst j); [lia|exact Hq]].
    + apply Z.ltb_ge in Hlt.
      destruct (IH bestD bestE)
        as [[Heq Hall]|(i & p' & Hi & Heq & Hd & Hmin & Hfirst)].
      * left. split; [exact Heq|].
        intros [|j] q Hq; cbn in Hq; [injection Hq as <-; lia|eauto].
      * right. exists (S i), p'. repeat split; auto.
        -- intros [|j] q Hq; cbn in Hq; [injection Hq as <-; lia|eauto].
        -- intros [|j] q Hj Hq; cbn in Hq;
             [injection Hq as <-; lia|apply (Hfirst j); [lia|exact Hq]].
Qed.

Lemma pal_channels_extreme :
  Forall (fun p => (pal_r p = 0 \/ pal_r p = 255) /\
                   (pal_g p = 0 \/ pal_g p = 255) /\
                   (pal_b p = 0 \/ pal_b p = 255)) pal.
Proof. unfold pal. repeat (constructor; [cbn; lia|]). constructor. Qed.

(** X2: for a colour whose three channels all lie in 74..181 no square
    overflows the 16-bit [int], and [rgbToEnum] does return the palette
    entry at minimal squared distance, the lowest-indexed one on a tie. *)
Theorem X2_mid_range_colours_quantized_to_nearest (r g b : Z) :
  mid_range r -> mid_range g -> mid_range b ->
  nearest_in_palette r g b (rgbToEnum r g b).
Proof.
  unfold mid_range. intros Hr Hg Hb.
  assert (Hexact : Forall (fun p => dist_at INT_BITS p r g b = dist2 p r g b)
                          pal).
  { eapply Forall_impl; [exact pal_channels_extreme|].
    intros p (Hpr & Hpg & Hpb). apply dist_at_16_exact; lia. }
  unfold rgbToEnum, rgbToEnum_at, nearest_in_palette.
  destruct (exact_match pal r g b) as [e|] eqn:He.
  - exfalso.
    destruct (exact_match_first _ _ _ _ _ He) as (i & p & Hi & _ & (Hpr & _) & _).
    pose proof (Forall_lookup_1 _ _ _ _ pal_channels_extreme Hi) as (Hx & _).
    lia.
  - destruct (nearest_scan_exact INT_BITS r g b pal Hexact 4294967295 BLUE)
      as [[_ Hall]|(i & p & Hi & Heq & _ & Hmin & Hfirst)].
    + exfalso. specialize (Hall 0%nat (mkPal 0 0 255 BLUE) eq_refl).
      unfold dist2 in Hall. cbn in Hall. nia.
    + exists i, p. auto.
Qed.

Lemma X2_mid_range_colours_quantized_to_nearest_witness :
  nearest_in_palette 100 120 180 (rgbToEnum 100 120 180).
Proof.
  apply X2_mid_range_colours_quantized_to_nearest; unfold mid_range; lia.
Defined.

(** ** Tube store *)

(** X3: [setTube] with an index below [NUM_TUBES] writes that entry and
    no other; with any other index it leaves the whole state as it is. *)
Theorem X3_setTube_writes_one_entry_or_nothing (i d r g b : Z)
    (hv comma : bool) (dim : Z) (st : Firmware) :
  store_ok st -> 0 <= i ->
  let st' := setTube i d r g b hv comma dim st in
  store_ok st' /\
  (i < NUM_TUBES ->
     tubes st' !! Z.to_nat i = Some (mkTube d r g b hv comma dim) /\
     forall j : nat, j <> Z.to_nat i -> tubes st' !! j = tubes st !! j) /\
  (NUM_TUBES <= i -> st' = st).
Proof.
  intros Hok Hi st'. subst st'. unfold setTube, store_ok in *.
  destruct (i <? NUM_TUBES) eqn:Hlt.
  - apply Z.ltb_lt in Hlt. cbn [tubes with_tubes].
    rewrite length_insert. split; [exact Hok|]. split; [|lia].
    intros _. split.
    + apply list_lookup_insert_eq. rewrite Hok. unfold NUM_TUBES in *. lia.
    + intros j Hj. now apply list_lookup_insert_ne.
  - apply Z.ltb_ge in Hlt. split; [exact Hok|]. split; [lia|reflexivity].
Qed.

Lemma X3_setTube_writes_one_entry_or_nothing_witness :
  tubes (setTube 2 7 1 2 3 true false 9 boot) !! 2%nat
    = Some (mkTube 7 1 2 3 true false 9) /\
  setTube 6 7 1 2 3 true false 9 boot = boot.
Proof.
  destruct (X3_setTube_writes_one_entry_or_nothing 2 7 1 2 3 true false 9
              boot eq_refl ltac:(lia)) as (_ & Hin & _).
  destruct (X3_setTube_writes_one_entry_or_nothing 6 7 1 2 3 true false 9
              boot eq_refl ltac:(lia)) as (_ & _ & Hout).
  split; [apply Hin; reflexivity|apply Hout; discriminate].
Defined.

(** ** Serial line handler *)

(** [handleLine] as the chain of tests of the source. *)
Lemma handleLine_chain (raw : list ascii) (st : Firmware) :
  handleLine raw st =
    let p := ltrim (rtrim raw) in
    if is_probe p then println "so long and thanks for all the fish" st
    else if is_resume p
    then println "Attract mode resumed" (with_gotFirstCommand false st)
    else if starts_with_N p
    then if fst (parseNLine p st) then snd (parseNLine p st)
         else println "ERR parse N line" (snd (parseNLine p st))
    else st.
Proof.
  unfold handleLine. cbv zeta.
  destruct (ltrim (rtrim raw)) as [|c1 p]; [reflexivity|].
  unfold is_probe, is_resume, starts_with_N.
  repeat case_match; subst; cbn [fst snd] in *; simplify_eq;
    try reflexivity; try discriminate.
Qed.

(** *** Trimming *)

Section DropWhile.

Variable f : ascii -> bool.

Lemma drop_while_all (x y : list ascii) :
  forallb f x = true -> drop_while f (x ++ y) = drop_while f y.
Proof.
  induction x as [|c x IH]; cbn; [reflexivity|].
  intros [Hc Hx]%andb_true_iff. rewrite Hc. now apply IH.
Qed.

Lemma drop_while_stop (x y : list ascii) :
  drop_while f x <> [] -> drop_while f (x ++ y) = drop_while f x ++ y.
Proof.
  induction x as [|c x IH]; cbn; [congruence|].
  destruct (f c); [exact IH|reflexivity].
Qed.

Lemma drop_while_nil (x : list ascii) :
  drop_while f x = [] -> forallb f x = true.
Proof.
  induction x as [|c x IH]; cbn; [reflexivity|].
  destruct (f c); [exact IH|discriminate].
Qed.

Lemma drop_while_head (x : list ascii) (c : ascii) (rest : list ascii) :
  drop_while f x = c :: rest -> f c = false.
Proof.
  induction x as [|a x IH]; cbn; [discriminate|].
  destruct (f a) eqn:Ha; [exact IH|]. now intros [= <- _].
Qed.

Lemma drop_while_split (x : list ascii) :
  exists a, x = a ++ drop_while f x /\ forallb f a = true.
Proof.
  induction x as [|c x (a & Ha & Hall)]; [now exists []|]. cbn.
  destruct (f c) eqn:Hc.
  - exists (c :: a). cbn. rewrite Hc, Hall. split; [now f_equal|reflexivity].
  - now exists [].
Qed.

End DropWhile.

Lemma forallb_rev (f : ascii -> bool) (x : list ascii) :
  forallb f (rev x) = forallb f x.
Proof.
  induction x as [|c x IH]; [reflexivity|]. cbn [rev forallb].
  rewrite forallb_app, IH. cbn. rewrite andb_true_r. apply andb_comm.
Qed.

Lemma is_blank_trail (c : ascii) : is_blank c = true -> is_trail c = true.
Proof.
  unfold is_blank, is_trail. intros [->| ->]%orb_true_iff;
    rewrite ?orb_true_r; reflexivity.
Qed.

Lemma rtrim_app_trail (s w : list ascii) :
  forallb is_trail w = true -> rtrim (s ++ w) = rtrim s.
Proof.
  intros Hw. unfold rtrim. rewrite rev_app_distr.
  rewrite drop_while_all; [reflexivity|]. now rewrite forallb_rev.
Qed.

(** [rtrim] of blanks followed by [s]. *)
Lemma rtrim_blank_app (w s : list ascii) :
  forallb is_blank w = true ->
  rtrim (w ++ s) = match rtrim s with [] => [] | _ => w ++ rtrim s end.
Proof.
  intros Hw. unfold rtrim. rewrite rev_app_distr.
  destruct (drop_while is_trail (rev s)) as [|c z] eqn:Hz.
  - rewrite drop_while_all by now apply drop_while_nil.
    assert (Hall : forallb is_trail (rev w) = true).
    { rewrite forallb_rev. apply forallb_forall. intros c Hc.
      apply is_blank_trail. revert c Hc. now apply forallb_forall. }
    rewrite <- (app_nil_r (rev w)), (drop_while_all _ _ _ Hall). reflexivity.
  - rewrite drop_while_stop by (rewrite Hz; discriminate).
    rewrite Hz. rewrite rev_app_distr. rewrite rev_involutive.
    destruct (rev (c :: z)) eqn:Hr; [|reflexivity].
    apply (f_equal (@length _)) in Hr. rewrite length_rev in Hr. discriminate.
Qed.

Lemma ltrim_rtrim_pad (lead s tail : list ascii) :
  forallb is_blank lead = true -> forallb is_trail tail = true ->
  ltrim (rtrim (lead ++ s ++ tail)) = ltrim (rtrim s).
Proof.
  intros Hl Ht. rewrite app_assoc, (rtrim_app_trail _ _ Ht).
  rewrite (rtrim_blank_app _ _ Hl).
  destruct (rtrim s) as [|c z]; [reflexivity|].
  unfold ltrim. now apply drop_while_all.
Qed.

(** X4: [handleLine] does not see spaces and tabs before the text of a
    line, nor spaces, tabs, carriage returns and line feeds behind it. *)
Theorem X4_handleLine_ignores_padding (lead s tail : list ascii)
    (st : Firmware) :
  forallb is_blank lead = true ->
  forallb is_trail tail = true ->
  handleLine (lead ++ s ++ tail) st = handleLine s st.
Proof.
  intros Hl Ht. unfold handleLine. now rewrite (ltrim_rtrim_pad _ _ _ Hl Ht).
Qed.

Lemma X4_handleLine_ignores_padding_witness :
  handleLine (str "  N,2,5,255,0,0,0 ") boot
  = handleLine (str "N,2,5,255,0,0,0") boot.
Proof.
  exact (X4_handleLine_ignores_padding (str "  ") (str "N,2,5,255,0,0,0")
           (str " ") boot eq_refl eq_refl).
Defined.

(** X5: trimming cuts a line into leading spaces and tabs, the trimmed
    text, and trailing white space; the trimmed text is left alone by both
    [rtrim] and [ltrim]. *)
Theorem X5_trim_splits_the_line (s : list ascii) :
  let p := ltrim (rtrim s) in
  (exists lead tail : list ascii,
     s = lead ++ p ++ tail /\
     forallb is_blank lead = true /\ forallb is_trail tail = true) /\
  rtrim p = p /\ ltrim p = p.
Proof.
  intros p. assert (Hp : p = drop_while is_blank (rtrim s)) by reflexivity.
  clearbody p.
  destruct (drop_while_split is_trail (rev s)) as (a & Ha & Hall).
  destruct (drop_while_split is_blank (rtrim s)) as (lead & Hlead & Hblank).
  rewrite <- Hp in Hlead.
  assert (Hs : s = rtrim s ++ rev a).
  { unfold rtrim. rewrite <- rev_app_distr, <- Ha. now rewrite rev_involutive. }
  split; [|split].
  - exists lead, (rev a). split; [|split].
    + rewrite app_assoc, <- Hlead. exact Hs.
    + exact Hblank.
    + now rewrite forallb_rev.
  - assert (Hrt : rtrim (rtrim s) = rtrim s).
    { unfold rtrim. rewrite rev_involutive. f_equal.
      destruct (drop_while is_trail (rev s)) as [|c0 z] eqn:Hz; [reflexivity|].
      cbn [drop_while]. now rewrite (drop_while_head _ _ _ _ Hz). }
    rewrite Hlead in Hrt. rewrite (rtrim_blank_app _ _ Hblank) in Hrt.
    destruct (rtrim p) as [|c0 z].
    + symmetry in Hrt. apply app_eq_nil in Hrt as [_ Hnil]. now symmetry.
    + now apply app_inv_head in Hrt.
  - rewrite Hp. unfold ltrim.
    destruct (drop_while is_blank (rtrim s)) as [|c z] eqn:Hz; [reflexivity|].
    cbn [drop_while]. now rewrite (drop_while_head _ _ _ _ Hz).
Qed.

(** *** What a line can and cannot do *)

(** X6: a line that, once trimmed, is neither "42", nor "A" or "a", nor
    starts with N or n, is ignored: nothing is printed, and the tube
    store, the mode flag, the brightness, both time stamps and the random
    generator stay as they were. The empty line is such a line. *)
Theorem X6_unrecognised_line_is_ignored (raw : list ascii) (st : Firmware) :
  let p := ltrim (rtrim raw) in
  is_probe p = false -> is_resume p = false -> starts_with_N p = false ->
  let st' := handleLine raw st in
  trace st' = trace st /\ same_display st st' /\
  lastByteAt st' = lastByteAt st /\ lastAttract st' = lastAttract st /\
  rng st' = rng st.
Proof.
  intros p Hprobe Hresume HN st'. subst st'.
  rewrite handleLine_chain. cbv zeta.
  fold p. rewrite Hprobe, Hresume, HN. now repeat split.
Qed.

Lemma X6_unrecognised_line_is_ignored_witness :
  trace (handleLine (str " AN,1,2,3,4,5,6") boot) = trace boot /\
  same_display boot (handleLine (str " AN,1,2,3,4,5,6") boot).
Proof.
  destruct (X6_unrecognised_line_is_ignored (str " AN,1,2,3,4,5,6") boot
              eq_refl eq_refl eq_refl) as (Ht & Hd & _).
  split; [exact Ht|exact Hd].
Defined.

Lemma parseNLine_frame (p : list ascii) (st : Firmware) :
  let st' := snd (parseNLine p st) in
  buf st' = buf st /\ lastByteAt st' = lastByteAt st /\
  lastAttract st' = lastAttract st /\ rng st' = rng st /\
  length (tubes st') = length (tubes st) /\
  exists es, trace st' = trace st ++ es.
Proof.
  destruct (fst (parseNLine p st)) eqn:Hacc.
  - destruct (parseNLine_accepted p st Hacc)
      as (f0 & f1 & f2 & f3 & f4 & f5 & Hidx & Heq).
    cbv zeta. rewrite Heq. unfold_ops.
    destruct (to_uint8 f0 <? NUM_TUBES); cbn; rewrite ?length_insert;
      repeat split; eauto.
  - cbv zeta. rewrite (parseNLine_rejected p st Hacc).
    repeat split. exists []. now rewrite app_nil_r.
Qed.

(** X7: whatever the line, [handleLine] leaves both time stamps and the
    random generator untouched, keeps the number of entries of the tube
    store, and only appends to the output. *)
Theorem X7_handleLine_frame (raw : list ascii) (st : Firmware) :
  let st' := handleLine raw st in
  lastByteAt st' = lastByteAt st /\
  lastAttract st' = lastAttract st /\ rng st' = rng st /\
  length (tubes st') = length (tubes st) /\
  exists es, trace st' = trace st ++ es.
Proof.
  cbv zeta. rewrite handleLine_chain. cbv zeta.
  pose proof (parseNLine_frame (ltrim (rtrim raw)) st)
    as (_ & Hl & Ha & Hr & Hn & es & Ht).
  repeat case_match; cbn [println emit lastByteAt lastAttract rng tubes
                          trace with_gotFirstCommand];
    rewrite ?Hl, ?Ha, ?Hr, ?Hn, ?Ht; repeat split; eauto.
  - rewrite <- app_assoc. eauto.
  - exists []. now rewrite app_nil_r.
Qed.

(** X8: the mode flag after a line. "A" or "a" clears it; a line starting
    with N or n sets it when [parseNLine] accepts it; every other line,
    a rejected N line included, leaves it as it was. *)
Theorem X8_mode_flag_after_a_line (raw : list ascii) (st : Firmware) :
  let p := ltrim (rtrim raw) in
  gotFirstCommand (handleLine raw st) =
    if is_resume p then false
    else if starts_with_N p && fst (parseNLine p st) then true
    else gotFirstCommand st.
Proof.
  intros p. rewrite handleLine_chain. cbv zeta. fold p.
  destruct (is_probe p) eqn:Hprobe.
  - assert (Hno : is_resume p = false /\ starts_with_N p = false).
    { destruct p as [|c1 [|c2 [|c3 rest]]]; try discriminate Hprobe.
      cbn in Hprobe. apply andb_true_iff in Hprobe as [H4 _].
      apply Ascii.eqb_eq in H4. subst c1. now split. }
    destruct Hno as [-> ->]. reflexivity.
  - destruct (is_resume p); [reflexivity|].
    destruct (starts_with_N p); [|reflexivity]. cbn [andb].
    destruct (fst (parseNLine p st)) eqn:Hacc.
    + destruct (parseNLine_accepted p st Hacc)
        as (f0 & f1 & f2 & f3 & f4 & f5 & Hidx & Heq).
      rewrite Heq.
      now destruct (update_with_fields f0 f1 f2 f3 f4 f5 st Hidx)
        as (_ & Hg & _).
    + now rewrite (parseNLine_rejected p st Hacc).
Qed.

(** ** Parse "N,idx,digit,r,g,b,dim": the fields of any line *)

Lemma split_commas_unfold (s : list ascii) :
  split_commas s =
    take_until is_comma s ::
      match drop_until is_comma s with
      | [] => []
      | _ :: rest => split_commas rest
      end.
Proof.
  induction s as [|c s IH]; [reflexivity|]. cbn.
  destruct (is_comma c); [reflexivity|]. now rewrite IH.
Qed.

(** [strtok_r] hands out the first token of the text and leaves a text
    with the remaining tokens. *)
Lemma tokens_strtok_r (s : list ascii) :
  match strtok_r s with
  | (None, save) => tokens s = [] /\ save = []
  | (Some t, save) => tokens s = t :: tokens save
  end.
Proof.
  unfold strtok_r, tokens. induction s as [|c s IH]; [now split|].
  cbn [drop_while split_commas]. destruct (is_comma c) eqn:Hc.
  - exact IH.
  - cbn [take_until drop_until]. rewrite Hc.
    rewrite (split_commas_unfold s). cbn [List.filter nonempty]. f_equal.
    destruct (drop_until is_comma s); reflexivity.
Qed.

(** [read_fields] reads the first [n] tokens of the text, and fails when
    there are fewer. *)
Lemma read_fields_tokens (n : nat) (s : list ascii) :
  read_fields n s =
    if (n <=? length (tokens s))%nat
    then Some (map field_value (take n (tokens s)))
    else None.
Proof.
  revert s. induction n as [|n IH]; intros s; [reflexivity|].
  cbn [read_fields]. pose proof (tokens_strtok_r s) as Htok.
  destruct (strtok_r s) as [[t|] save].
  - rewrite Htok, IH. cbn [length take map].
    change (S n <=? S (length (tokens save)))%nat
      with (n <=? length (tokens save))%nat.
    now destruct (n <=? length (tokens save))%nat.
  - destruct Htok as [-> _]. reflexivity.
Qed.

Lemma tl_take {A : Type} (n : nat) (l : list A) :
  tl (take (S n) l) = take n (tl l).
Proof. destruct l; [now destruct n|reflexivity]. Qed.

(** The fields [parseNLine] reads are the six tokens behind the first. *)
Lemma parseNLine_fields (p : list ascii) :
  read_fields 6 (snd (strtok_r p)) =
    let key := tl (take 7 (tokens p)) in
    if (length key =? 6)%nat then Some (map field_value key) else None.
Proof.
  cbv zeta. rewrite read_fields_tokens, tl_take.
  assert (Hsave : tokens (snd (strtok_r p)) = tl (tokens p)).
  { pose proof (tokens_strtok_r p) as Htok.
    destruct (strtok_r p) as [[t|] save]; cbn [snd].
    - now rewrite Htok.
    - now destruct Htok as [-> ->]. }
  rewrite Hsave, length_take.
  destruct (Nat.leb_spec 6 (length (tl (tokens p)))) as [Hle|Hlt].
  - now rewrite Nat.min_l, Nat.eqb_refl by exact Hle.
  - rewrite Nat.min_r by lia.
    destruct (Nat.eqb_spec (length (tl (tokens p))) 6); [lia|reflexivity].
Qed.

(** X9: [parseNLine] sees a line only through its first seven non-empty
    pieces between commas (the directive and six fields): empty pieces,
    that is doubled, leading or trailing commas, and every piece behind
    the seventh make no difference to the result. *)
Theorem X9_parse_depends_on_first_seven_tokens (p q : list ascii)
    (st : Firmware) :
  take 7 (tokens p) = take 7 (tokens q) ->
  parseNLine p st = parseNLine q st.
Proof.
  intros Heq. unfold parseNLine.
  now rewrite (parseNLine_fields p), (parseNLine_fields q), Heq.
Qed.

Lemma X9_parse_depends_on_first_seven_tokens_witness :
  parseNLine (str ",N,,2,5,255,0,0,0,,7,8,") boot
  = parseNLine (str "N,2,5,255,0,0,0") boot.
Proof.
  exact (X9_parse_depends_on_first_seven_tokens
           (str ",N,,2,5,255,0,0,0,,7,8,") (str "N,2,5,255,0,0,0") boot
           eq_refl).
Defined.

(** X10: an N line with fewer than six non-empty fields behind the
    directive is rejected, whatever its commas: [parseNLine] returns
    false, prints nothing, and leaves the tube store, the mode flag and
    the brightness as they were. *)
Theorem X10_too_few_fields_rejected (p : list ascii) (st : Firmware) :
  (length (tokens p) < 7)%nat ->
  let st' := snd (parseNLine p st) in
  fst (parseNLine p st) = false /\
  same_display st st' /\ trace st' = trace st.
Proof.
  intros Hlen. cbv zeta. unfold parseNLine. rewrite parseNLine_fields.
  cbv zeta.
  assert (Hkey : (length (tl (take 7 (tokens p))) =? 6)%nat = false).
  { apply Nat.eqb_neq. rewrite tl_take, length_take.
    destruct (tokens p); cbn [tl length] in *; lia. }
  rewrite Hkey. now repeat split.
Qed.

Lemma X10_too_few_fields_rejected_witness :
  fst (parseNLine (str "N,1,2,,3,,4,5,,") boot) = false /\
  tubes (snd (parseNLine (str "N,1,2,,3,,4,5,,") boot)) = tubes boot.
Proof.
  assert (Hlen : (length (tokens (str "N,1,2,,3,,4,5,,")) < 7)%nat)
    by (vm_compute; lia).
  destruct (X10_too_few_fields_rejected (str "N,1,2,,3,,4,5,,") boot Hlen)
    as (Hf & (Ht & _) & _).
  split; [exact Hf|exact Ht].
Defined.

(** [parseNLine] written with [update_with]. *)
Lemma parseNLine_unfold (p : list ascii) (st : Firmware) :
  parseNLine p st =
    match read_fields 6 (snd (strtok_r p)) with
    | Some [f0; f1; f2; f3; f4; f5] =>
        if to_uint8 f0 <? NUM_TUBES
        then (true, update_with f0 f1 f2 f3 f4 f5 st)
        else (false, st)
    | _ => (false, st)
    end.
Proof.
  unfold parseNLine.
  destruct (read_fields 6 (snd (strtok_r p)))
    as [[|f0 [|f1 [|f2 [|f3 [|f4 [|f5 [|f6 fs]]]]]]]|]; try reflexivity.
  rewrite Z.geb_leb, Z.leb_antisym.
  now destruct (to_uint8 f0 <? NUM_TUBES).
Qed.

(** X11: a display update is idempotent on the display state: handling
    the same line a second time leaves the tube store, the mode flag and
    the brightness as the first time left them. *)
Theorem X11_same_update_twice (p : list ascii) (st : Firmware) :
  let st1 := snd (parseNLine p st) in
  let st2 := snd (parseNLine p st1) in
  fst (parseNLine p st1) = fst (parseNLine p st) /\
  tubes st2 = tubes st1 /\
  gotFirstCommand st2 = gotFirstCommand st1 /\
  brightness st2 = brightness st1.
Proof.
  cbv zeta. rewrite !(parseNLine_unfold p).
  destruct (read_fields 6 (snd (strtok_r p)))
    as [[|f0 [|f1 [|f2 [|f3 [|f4 [|f5 [|f6 fs]]]]]]]|];
    try (now repeat split).
  destruct (to_uint8 f0 <? NUM_TUBES) eqn:Hidx; [|now repeat split].
  cbn [fst snd]. apply Z.ltb_lt in Hidx.
  destruct (update_with_fields f0 f1 f2 f3 f4 f5 st Hidx)
    as (Ht1 & Hg1 & Hb1 & _).
  destruct (update_with_fields f0 f1 f2 f3 f4 f5
              (update_with f0 f1 f2 f3 f4 f5 st) Hidx)
    as (Ht2 & Hg2 & Hb2 & _).
  cbv zeta in Ht1, Ht2.
  split; [reflexivity|]. split; [|split; congruence].
  rewrite Ht2, Ht1. apply list_insert_insert_eq.
Qed.

(** ** The line framer, continued *)

Lemma readByte_eol_buf (c : ascii) (t : Z) (st : Firmware) :
  is_eol c = true -> buf (readByte c t st) = [].
Proof.
  intros Hc. unfold readByte. rewrite Hc.
  destruct (blen (with_lastByteAt t st) =? 0) eqn:Hb; [|reflexivity].
  now apply blen_zero in Hb.
Qed.

Lemma readByte_eol_empty (c : ascii) (t : Z) (st : Firmware) :
  is_eol c = true -> buf st = [] -> readByte c t st = with_lastByteAt t st.
Proof.
  intros Hc Hbuf. unfold readByte. rewrite Hc.
  assert (Hb : (blen (with_lastByteAt t st) =? 0) = true)
    by now apply blen_zero.
  now rewrite Hb.
Qed.

(** X12: a terminator that follows a terminator (the LF of a CR LF pair,
    or an empty line) only records its arrival time: the line is not
    dispatched a second time and nothing is printed. *)
Theorem X12_second_terminator_is_silent (c1 c2 : ascii) (t1 t2 : Z)
    (st : Firmware) :
  is_eol c1 = true -> is_eol c2 = true ->
  readByte c2 t2 (readByte c1 t1 st) = with_lastByteAt t2 (readByte c1 t1 st).
Proof.
  intros H1 H2. apply readByte_eol_empty; [exact H2|].
  now apply readByte_eol_buf.
Qed.

Lemma X12_second_terminator_is_silent_witness :
  let st := serialReader (bytes_at 5 (str "N,2,5,255,0,0,0")) boot in
  readByte "010" 7 (readByte "013" 6 st) = with_lastByteAt 7 (readByte "013" 6 st).
Proof.
  intros st.
  exact (X12_second_terminator_is_silent "013" "010" 6 7 st eq_refl eq_refl).
Defined.

Lemma readByte_blen (c : ascii) (t : Z) (st : Firmware) :
  blen st < BUF_SIZE -> blen (readByte c t st) < BUF_SIZE.
Proof.
  intros Hb. unfold readByte, dispatch.
  change (blen (with_lastByteAt t st)) with (blen st).
  destruct (is_eol c).
  - destruct (blen st =? 0); [exact Hb|reflexivity].
  - destruct (blen st + 1 <? BUF_SIZE) eqn:Hroom; [|reflexivity].
    apply Z.ltb_lt in Hroom. unfold blen in *.
    cbn [buf with_buf with_lastByteAt].
    rewrite length_app. cbn [length]. lia.
Qed.

Lemma serialReader_blen (rx : list (ascii * Z)) (st : Firmware) :
  blen st < BUF_SIZE -> blen (serialReader rx st) < BUF_SIZE.
Proof.
  revert st. induction rx as [|[c t] rx IH]; intros st Hb; [exact Hb|].
  cbn [serialReader]. now apply IH, readByte_blen.
Qed.

Lemma idleFlush_blen (now : Z) (st : Firmware) :
  blen st < BUF_SIZE -> blen (idleFlush now st) < BUF_SIZE.
Proof.
  intros Hb. unfold idleFlush, dispatch. now case_match.
Qed.

Section BufferBound.

Variable libc_random : N -> N * N.

Lemma attractTick_buf (now : Z) (st : Firmware) :
  buf (attractTick libc_random now st) = buf st.
Proof.
  unfold attractTick. repeat case_match; try reflexivity.
  cbn [buf with_lastAttract render emit].
  now destruct (attractFill_frame libc_random tube_indices
                  (setBrightness ATTRACT_DIM st)) as (_ & -> & _).
Qed.

Lemma setup_buf (seed : N) (now : Z) :
  buf (setup libc_random seed now boot) = [].
Proof.
  unfold setup. cbn [buf with_lastAttract render emit].
  now destruct (attractFill_frame libc_random tube_indices
                  (with_rng seed (setBrightness ATTRACT_DIM boot)))
    as (_ & -> & _).
Qed.

(** X13: in every state reachable from boot the line buffer holds at most
    [sizeof(buf) - 1] bytes, so that the terminating NUL written at
    [buf[blen]] always falls inside the array. *)
Theorem X13_buffer_never_full (st : Firmware) :
  reachable libc_random st -> 0 <= blen st < BUF_SIZE.
Proof.
  intros Hreach. split; [unfold blen; lia|].
  induction Hreach as [seed now|c st _ IH].
  - unfold blen. now rewrite setup_buf.
  - unfold loop, blen. rewrite attractTick_buf.
    now apply idleFlush_blen, serialReader_blen.
Qed.

End BufferBound.

Lemma X13_buffer_never_full_witness :
  let st := loop demo_random
              (mkCycle (bytes_at 1010 (repeat "x"%char 500)) 1010 1010)
              (setup demo_random 5 1000 boot) in
  reachable demo_random st /\ 0 <= blen st < BUF_SIZE.
Proof.
  intros st.
  assert (Hreach : reachable demo_random st)
    by (apply reachable_loop, reachable_setup).
  split; [exact Hreach|].
  exact (X13_buffer_never_full demo_random st Hreach).
Defined.

Lemma cstr_nul (a b : list ascii) :
  forallb (fun c => negb (Ascii.eqb c "000")) a = true ->
  cstr (a ++ "000"%char :: b) = a /\ cstr a = a.
Proof.
  induction a as [|c a IH]; cbn; [now split|].
  intros [Hc Ha]%andb_true_iff. apply negb_true_iff in Hc. rewrite Hc.
  destruct (IH Ha) as [-> ->]. now split.
Qed.

(** X14: a NUL byte inside a line ends its text: when the terminator
    comes, [handleLine] gets the bytes received before the NUL, and the
    bytes between the NUL and the terminator are dropped. *)
Theorem X14_nul_byte_cuts_the_line (rx : list (ascii * Z))
    (a b : list ascii) (eol : ascii) (t : Z) (st : Firmware) :
  buf st = [] ->
  map fst rx = a ++ "000"%char :: b ->
  forallb (fun c => negb (Ascii.eqb c "000")) a = true ->
  forallb (fun ct => negb (is_eol (fst ct))) rx = true ->
  Z.of_nat (length rx) < BUF_SIZE ->
  is_eol eol = true ->
  serialReader (rx ++ [(eol, t)]) st =
    with_buf [] (handleLine a (with_lastByteAt t st)).
Proof.
  intros Hbuf Hrx Ha Hne Hlen Heol.
  rewrite (serialReader_line rx eol t st Hne); [| |  |exact Heol].
  - rewrite Hbuf, Hrx. cbn [app]. now rewrite (proj1 (cstr_nul a b Ha)).
  - unfold blen. rewrite Hbuf. cbn [length]. lia.
  - rewrite Hbuf, Hrx. cbn [app]. now destruct a.
Qed.

Lemma X14_nul_byte_cuts_the_line_witness :
  serialReader (bytes_at 3 (str "A" ++ "000"%char :: str "N,0,1,2,3,4,5")
                ++ [("010"%char, 4)]) boot
  = with_buf [] (handleLine (str "A") (with_lastByteAt 4 boot)).
Proof.
  apply (X14_nul_byte_cuts_the_line _ (str "A") (str "N,0,1,2,3,4,5"));
    reflexivity.
Defined.

(** ** Attract mode, [setup] and [loop], continued *)

Section AttractDigits.

Variable libc_random : N -> N * N.

(** The fill loop over the indices [k], [k+1], ... writes the digits
    drawn, in this order, behind the first [k] entries. *)
Lemma attractFill_draws (m : nat) :
  forall (k : nat) (pre rest : list TubeState) (st : Firmware),
    tubes st = pre ++ rest -> length pre = k -> length rest = m ->
    (Z.of_nat (k + m) <= NUM_TUBES) ->
    let st' := attractFill libc_random (seq k m) st in
    tubes st' = pre ++ map attract_tube (fst (draws libc_random m (rng st))) /\
    rng st' = snd (draws libc_random m (rng st)).
Proof.
  induction m as [|m IH]; intros k pre rest st Ht Hk Hm Hle.
  - destruct rest; [|discriminate Hm]. cbn. now rewrite Ht.
  - destruct rest as [|x rest]; [discriminate Hm|].
    cbn [seq attractFill draws]. unfold random.
    change (0 >=? 10) with false. cbv beta iota zeta.
    change (10 - 0) with 10.
    destruct (libc_random (rng st)) as [v s'] eqn:Hv.
    pose proof (Z.mod_pos_bound (Z.of_N v) 10 ltac:(lia)) as Hd.
    rewrite Z.add_0_r, to_uint8_id by lia.
    assert (Hlt : (Z.of_nat k <? NUM_TUBES) = true)
      by (apply Z.ltb_lt; lia).
    unfold setTube. rewrite Hlt. rewrite Nat2Z.id.
    specialize (IH (S k) (pre ++ [attract_tube (Z.of_N v mod 10)]) rest
                  (with_tubes
                     (<[k := mkTube (Z.of_N v mod 10) 255 0 0 true false
                                    ATTRACT_DIM]> (tubes st))
                     (with_rng s' st))).
    cbv zeta in IH.
    destruct IH as [IHt IHr].
    + cbn [tubes with_tubes]. rewrite Ht.
      rewrite <- Hk, <- (Nat.add_0_r (length pre)), insert_app_r.
      cbn. now rewrite <- app_assoc.
    + rewrite length_app. cbn. lia.
    + now injection Hm.
    + lia.
    + cbn [rng with_tubes with_rng] in IHt, IHr.
      change (tubes (with_rng s' st)) with (tubes st).
      destruct (draws libc_random m s') as [ds s''].
      cbn [fst snd map] in *. rewrite IHt, IHr, <- app_assoc. now split.
Qed.

Lemma attractFill_six (st : Firmware) :
  store_ok st ->
  let st' := attractFill libc_random tube_indices st in
  tubes st' = map attract_tube (fst (draws libc_random 6 (rng st))) /\
  rng st' = snd (draws libc_random 6 (rng st)).
Proof.
  intros Hok. apply (attractFill_draws 6 0 [] (tubes st) st); auto.
  cbn. unfold NUM_TUBES. lia.
Qed.

(** X15: while the mode flag is set, and also before [ATTRACT_MS] have
    passed since the last tick, a pass of [loop] that finds no byte and
    an empty buffer changes nothing at all. *)
Theorem X15_quiet_pass_changes_nothing (t_idle now : Z) (st : Firmware) :
  buf st = [] ->
  gotFirstCommand st = true \/ ulong_sub now (lastAttract st) < ATTRACT_MS ->
  loop libc_random (mkCycle [] t_idle now) st = st.
Proof.
  intros Hbuf Hwait. rewrite (loop_quiet libc_random _ _ _ Hbuf).
  now apply attractTick_waits.
Qed.

(** X16: [setup] leaves the attract picture: the six tubes show the first
    six digits drawn, lit and red, at the attract brightness; the mode
    flag is clear, the buffer empty, the last tick is the time of its
    end, and the picture has been rendered twice. *)
Theorem X16_setup_shows_attract_picture (seed : N) (now : Z) :
  let st := setup libc_random seed now boot in
  tubes st = map attract_tube (fst (draws libc_random 6 seed)) /\
  rng st = snd (draws libc_random 6 seed) /\
  gotFirstCommand st = false /\ buf st = [] /\
  brightness st = ATTRACT_DIM /\ lastAttract st = now /\
  trace st = frame (tubes st) ++ frame (tubes st).
Proof.
  cbv zeta. unfold setup.
  destruct (attractFill_six (with_rng seed (setBrightness ATTRACT_DIM boot)))
    as [Ht Hr]; [reflexivity|].
  destruct (attractFill_frame libc_random tube_indices
              (with_rng seed (setBrightness ATTRACT_DIM boot)))
    as (Hg & Hb & _ & _ & Hbr & Htr & _).
  cbv zeta in Ht, Hr.
  cbn [tubes rng gotFirstCommand buf brightness lastAttract trace
       with_lastAttract render emit].
  rewrite Ht at 1. rewrite Hr, Hg, Hb, Hbr, Htr.
  repeat split.
Qed.

(** X17: an attract tick that fires gives tube [i] the [i]-th of the next
    six values of the generator, modulo 10, advances the generator by
    exactly these six calls, and renders that picture once. *)
Theorem X17_attract_tick_draws_six_digits (now : Z) (st : Firmware) :
  store_ok st ->
  gotFirstCommand st = false ->
  ATTRACT_MS <= ulong_sub now (lastAttract st) ->
  let st' := attractTick libc_random now st in
  tubes st' = map attract_tube (fst (draws libc_random 6 (rng st))) /\
  rng st' = snd (draws libc_random 6 (rng st)) /\
  trace st' = trace st ++ frame (tubes st') /\
  lastAttract st' = now.
Proof.
  intros Hok Hg Hms. cbv zeta.
  rewrite (attractTick_fires libc_random now st Hg Hms).
  destruct (attractFill_six (setBrightness ATTRACT_DIM st)) as [Ht Hr];
    [exact Hok|].
  destruct (attractFill_frame libc_random tube_indices
              (setBrightness ATTRACT_DIM st))
    as (_ & _ & _ & _ & _ & Htr & _).
  cbv zeta in Ht, Hr.
  cbn [tubes rng lastAttract trace with_lastAttract render emit].
  rewrite Ht at 1. rewrite Hr, Htr. repeat split.
Qed.

End AttractDigits.

Lemma X15_quiet_pass_changes_nothing_witness :
  let st := snd (parseNLine (str "N,2,5,255,0,0,0")
                            (setup demo_random 5 1000 boot)) in
  loop demo_random (mkCycle [] 5000 5000) st = st.
Proof.
  intros st.
  exact (X15_quiet_pass_changes_nothing demo_random 5000 5000 st eq_refl
           (or_introl eq_refl)).
Defined.

Lemma X17_attract_tick_draws_six_digits_witness :
  let st := setup demo_random 5 1000 boot in
  tubes (attractTick demo_random 1050 st)
  = map attract_tube [0; 7; 4; 1; 8; 5].
Proof.
  intros st.
  assert (Hms : ATTRACT_MS <= ulong_sub 1050 (lastAttract st))
    by (vm_compute; discriminate).
  exact (proj1 (X17_attract_tick_draws_six_digits demo_random 1050 st
                  eq_refl eq_refl Hms)).
Defined.

(** ** Timers across the rollover of [millis()] *)

(** The [unsigned long] difference is the time elapsed, also when the
    clock has wrapped around in between. *)
Lemma ulong_sub_elapsed (last e : Z) :
  0 <= last < 2 ^ 32 -> 0 <= e < 2 ^ 32 ->
  ulong_sub (to_uint32 (last + e)) last = e.
Proof.
  intros Hl He. unfold ulong_sub, to_uint32.
  rewrite Zminus_mod_idemp_l.
  replace (last + e - last) with e by lia. now apply Z.mod_small.
Qed.

Section Rollover.

Variable libc_random : N -> N * N.

(** X18: both timers measure elapsed time modulo 2^32, so they stay right
    when [millis()] rolls over: [e] milliseconds after the last byte the
    idle flush fires exactly when [e >= 30], and [e] milliseconds after
    the last tick the attract tick (mode flag clear) fires exactly when
    [e >= 50], whatever the clock readings. *)
Theorem X18_timers_survive_rollover (e : Z) (st : Firmware) :
  0 <= e < 2 ^ 32 ->
  0 <= lastByteAt st < 2 ^ 32 ->
  0 <= lastAttract st < 2 ^ 32 ->
  buf st <> [] ->
  gotFirstCommand st = false ->
  let t_idle := to_uint32 (lastByteAt st + e) in
  let t_tick := to_uint32 (lastAttract st + e) in
  idleFlush t_idle st = (if e <? IDLE_PARSE_MS then st else dispatch st) /\
  attractTick libc_random t_tick st =
    (if e <? ATTRACT_MS then st
     else with_lastAttract t_tick
            (render (attractFill libc_random tube_indices
                                 (setBrightness ATTRACT_DIM st)))).
Proof.
  intros He Hb Ha Hbuf Hg. cbv zeta. split.
  - unfold idleFlush. rewrite (ulong_sub_elapsed _ _ Hb He).
    assert (Hlen : (blen st >? 0) = true).
    { unfold blen. destruct (buf st); [contradiction|reflexivity]. }
    rewrite Hlen, Z.geb_leb, Z.leb_antisym. cbn [andb].
    now destruct (e <? IDLE_PARSE_MS).
  - unfold attractTick. rewrite Hg, (ulong_sub_elapsed _ _ Ha He).
    rewrite Z.geb_leb, Z.leb_antisym. now destruct (e <? ATTRACT_MS).
Qed.

End Rollover.

Lemma X18_timers_survive_rollover_witness :
  idleFlush 24 near_rollover = dispatch near_rollover /\
  attractTick demo_random 24 near_rollover = near_rollover.
Proof.
  assert (Hbuf : buf near_rollover <> []) by discriminate.
  exact (X18_timers_survive_rollover demo_random 30 near_rollover
           ltac:(cbn; lia) ltac:(cbn; lia) ltac:(cbn; lia) Hbuf eq_refl).
Defined.

(** ** The fields held by the store *)

Lemma clamp255_in_byte (v : Z) : in_byte (clamp255 v).
Proof.
  unfold clamp255, in_byte.
  destruct (v <? 0) eqn:Hneg; [lia|]. apply Z.ltb_ge in Hneg.
  destruct (v >? 255) eqn:Hbig; [lia|].
  rewrite Z.gtb_ltb in Hbig. apply Z.ltb_ge in Hbig. lia.
Qed.

Lemma is_attract_tube_wf (t : TubeState) : is_attract_tube t -> tube_wf t.
Proof.
  intros (d & Hd & ->). unfold tube_wf, digit_ok, in_byte. cbn.
  unfold ATTRACT_DIM. repeat split; try lia; try discriminate.
Qed.

Lemma parseNLine_tubes_wf (p : list ascii) (st : Firmware) :
  Forall tube_wf (tubes st) -> Forall tube_wf (tubes (snd (parseNLine p st))).
Proof.
  intros Hall. rewrite parseNLine_unfold.
  destruct (read_fields 6 (snd (strtok_r p)))
    as [[|f0 [|f1 [|f2 [|f3 [|f4 [|f5 [|f6 fs]]]]]]]|]; try exact Hall.
  destruct (to_uint8 f0 <? NUM_TUBES) eqn:Hidx; [|exact Hall].
  apply Z.ltb_lt in Hidx. cbn [snd].
  destruct (update_with_fields f0 f1 f2 f3 f4 f5 st Hidx) as (Ht & _).
  cbv zeta in Ht. rewrite Ht. apply Forall_insert; [exact Hall|].
  unfold tube_wf, digit_ok. cbn.
  pose proof (to_uint8_range f1). pose proof (to_uint8_range f5).
  pose proof (clamp255_in_byte f2). pose proof (clamp255_in_byte f3).
  pose proof (clamp255_in_byte f4). unfold in_byte in *.
  destruct (to_uint8 f1 <=? 9) eqn:Hd; [apply Z.leb_le in Hd|];
    repeat split; try lia; try tauto; discriminate.
Qed.

Lemma handleLine_tubes_wf (raw : list ascii) (st : Firmware) :
  Forall tube_wf (tubes st) -> Forall tube_wf (tubes (handleLine raw st)).
Proof.
  intros Hall. destruct (handleLine_tubes raw st) as [->|[p ->]];
    [exact Hall|now apply parseNLine_tubes_wf].
Qed.

Lemma readByte_tubes_wf (c : ascii) (t : Z) (st : Firmware) :
  Forall tube_wf (tubes st) -> Forall tube_wf (tubes (readByte c t st)).
Proof.
  intros Hall. unfold readByte, dispatch. repeat case_match; try exact Hall.
  cbn [tubes with_buf]. now apply handleLine_tubes_wf.
Qed.

Lemma serialReader_tubes_wf (rx : list (ascii * Z)) (st : Firmware) :
  Forall tube_wf (tubes st) -> Forall tube_wf (tubes (serialReader rx st)).
Proof.
  revert st. induction rx as [|[c t] rx IH]; intros st Hall; [exact Hall|].
  cbn [serialReader]. now apply IH, readByte_tubes_wf.
Qed.

Lemma idleFlush_tubes_wf (now : Z) (st : Firmware) :
  Forall tube_wf (tubes st) -> Forall tube_wf (tubes (idleFlush now st)).
Proof.
  intros Hall. unfold idleFlush, dispatch. case_match; [|exact Hall].
  cbn [tubes with_buf]. now apply handleLine_tubes_wf.
Qed.

Section StoreFields.

Variable libc_random : N -> N * N.

Lemma attractFill_tubes_wf (st : Firmware) :
  Forall tube_wf (tubes st) ->
  Forall tube_wf (tubes (attractFill libc_random tube_indices st)).
Proof.
  intros Hall. apply Forall_lookup_2. intros i t Hi.
  assert (Hidxs : Forall (fun i => Z.of_nat i < NUM_TUBES) tube_indices)
    by (repeat constructor).
  destruct (attractFill_tubes libc_random _ st Hidxs i t Hi)
    as [Ha|[_ Hl]]; [now apply is_attract_tube_wf|].
  exact (Forall_lookup_1 _ _ _ _ Hall Hl).
Qed.

(** X19: in every state reachable from boot each entry of the tube store
    fits its C types (digit 0..9; r, g, b and dim 0..255), has no comma,
    and holds digit 0 whenever it is not lit. *)
Theorem X19_store_entries_well_formed (st : Firmware) :
  reachable libc_random st -> Forall tube_wf (tubes st).
Proof.
  induction 1 as [seed now|c st _ IH].
  - unfold setup. cbn [tubes with_lastAttract render emit].
    apply attractFill_tubes_wf. cbn.
    repeat constructor; cbn; unfold in_byte; lia.
  - unfold loop, attractTick. repeat case_match;
      try (now apply idleFlush_tubes_wf, serialReader_tubes_wf).
    cbn [tubes with_lastAttract render emit].
    apply attractFill_tubes_wf. cbn [tubes setBrightness].
    now apply idleFlush_tubes_wf, serialReader_tubes_wf.
Qed.

End StoreFields.

Lemma X19_store_entries_well_formed_witness :
  let st := loop demo_random
              (mkCycle (bytes_at 1010 (str "N,3,200,-7,999,0,300")
                        ++ [("010"%char, 1011)]) 1012 1013)
              (setup demo_random 5 1000 boot) in
  reachable demo_random st /\ Forall tube_wf (tubes st).
Proof.
  intros st.
  assert (Hreach : reachable demo_random st)
    by (apply reachable_loop, reachable_setup).
  split; [exact Hreach|].
  exact (X19_store_entries_well_formed demo_random st Hreach).
Defined.

(** ** Fields through [atoi] *)

Lemma digits_junk (ds junk : list ascii) (acc : Z) :
  forallb isdigit ds = true ->
  match junk with [] => true | c :: _ => negb (isdigit c) end = true ->
  digits acc (ds ++ junk) = digits acc ds.
Proof.
  intros Hds Hjunk. revert acc.
  induction ds as [|c ds IH]; intros acc.
  - destruct junk as [|c junk]; [reflexivity|]. cbn.
    apply negb_true_iff in Hjunk. now rewrite Hjunk.
  - cbn in Hds |- *. apply andb_true_iff in Hds as [Hc Hds].
    rewrite Hc. now apply IH.
Qed.

Lemma isdigit_plain (c : ascii) :
  isdigit c = true ->
  is_blank c = false /\ isspace c = false /\
  Ascii.eqb c "-" = false /\ Ascii.eqb c "+" = false.
Proof.
  unfold isdigit, is_blank, isspace. intros [Hlo Hhi]%andb_true_iff.
  apply Z.leb_le in Hlo, Hhi.
  assert (Hne : forall k : ascii, code k < 48 -> Ascii.eqb c k = false).
  { intros k Hk. apply Ascii.eqb_neq. intros ->. lia. }
  rewrite !Hne by reflexivity.
  repeat split. cbn [orb].
  apply andb_false_iff. right. apply Z.leb_gt. lia.
Qed.

(** X20: a field is read as its leading decimal number: spaces and tabs
    before the digits are skipped, everything from the first character
    that is no digit on is ignored, and a minus sign in front negates;
    the value is taken as a 16-bit [int]. *)
Theorem X20_field_is_its_leading_number (lead ds junk : list ascii) :
  forallb is_blank lead = true ->
  forallb isdigit ds = true -> ds <> [] ->
  match junk with [] => true | c :: _ => negb (isdigit c) end = true ->
  field_value (lead ++ ds ++ junk) = to_int (digits 0 ds) /\
  field_value (lead ++ "-"%char :: ds ++ junk) = to_int (- digits 0 ds).
Proof.
  intros Hlead Hds Hne Hjunk. unfold field_value.
  rewrite !(drop_while_all is_blank _ _ Hlead).
  destruct ds as [|d ds]; [contradiction|].
  assert (Hd : isdigit d = true) by (cbn in Hds; now apply andb_true_iff in Hds).
  destruct (isdigit_plain d Hd) as (Hb & Hs & Hm & Hp).
  split.
  - cbn [app drop_while]. rewrite Hb. unfold atoi.
    cbn [drop_while]. rewrite Hs, Hm, Hp.
    change (d :: ds ++ junk) with ((d :: ds) ++ junk).
    now rewrite digits_junk.
  - cbn [drop_while]. change (is_blank "-") with false. cbv iota.
    unfold atoi. cbn [drop_while]. change (isspace "-") with false. cbv iota.
    change (Ascii.eqb "-" "-") with true. cbv iota.
    now rewrite digits_junk.
Qed.

Lemma X20_field_is_its_leading_number_witness :
  field_value (str "  12abc") = 12 /\ field_value (str "  -12abc") = -12.
Proof.
  exact (X20_field_is_its_leading_number (str "  ") (str "12") (str "abc")
           eq_refl eq_refl ltac:(discriminate) eq_refl).
Defined.

(** ** A stream of lines *)

Lemma serialReader_app (rx1 rx2 : list (ascii * Z)) (st : Firmware) :
  serialReader (rx1 ++ rx2) st = serialReader rx2 (serialReader rx1 st).
Proof.
  revert st. induction rx1 as [|[c t] rx1 IH]; intros st; [reflexivity|].
  cbn [app serialReader]. apply IH.
Qed.

Lemma handleLine_keeps_buf (raw : list ascii) (st : Firmware) :
  buf (handleLine raw st) = buf st.
Proof.
  replace st with (with_buf (buf st) st) at 1 by (now destruct st).
  now rewrite handleLine_buf.
Qed.

Lemma with_buf_same (st : Firmware) : with_buf (buf st) st = st.
Proof. now destruct st. Qed.

Lemma bytes_at_no_eol (t : Z) (l : list ascii) :
  forallb (fun c => negb (is_eol c)) l = true ->
  forallb (fun ct => negb (is_eol (fst ct))) (bytes_at t l) = true.
Proof.
  induction l as [|c l IH]; [reflexivity|].
  cbn [forallb bytes_at map fst].
  intros [Hc Hl]%andb_true_iff. rewrite Hc. cbn [andb]. exact (IH Hl).
Qed.

(** One terminated line arriving on an empty buffer. *)
Lemma serialReader_one_line (t : Z) (eol : ascii) (l : list ascii)
    (st : Firmware) :
  buf st = [] -> line_ok l = true -> is_eol eol = true ->
  serialReader (bytes_at t l ++ [(eol, t)]) st
  = with_lastByteAt t (handleLine (cstr l) st).
Proof.
  intros Hbuf [Hne Hlen]%andb_true_iff Heol. apply Z.ltb_lt in Hlen.
  destruct l as [|c l].
  - cbn [bytes_at map app serialReader].
    now rewrite (readByte_eol_empty eol t st Heol Hbuf).
  - rewrite (serialReader_line (bytes_at t (c :: l)) eol t st).
    + unfold bytes_at. rewrite map_map. cbn [fst]. rewrite map_id, Hbuf.
      cbn [app]. rewrite handleLine_lastByteAt.
      rewrite <- (with_buf_same (with_lastByteAt t (handleLine _ st))) at 2.
      cbn [buf with_lastByteAt]. now rewrite handleLine_keeps_buf, Hbuf.
    + now apply bytes_at_no_eol.
    + unfold blen, bytes_at. rewrite Hbuf, length_map. cbn [length] in *. lia.
    + rewrite Hbuf. discriminate.
    + exact Heol.
Qed.

Lemma fold_handleLine_lastByteAt (ls : list (list ascii)) (t : Z)
    (st : Firmware) :
  fold_left (fun s l => handleLine (cstr l) s) ls (with_lastByteAt t st)
  = with_lastByteAt t (fold_left (fun s l => handleLine (cstr l) s) ls st).
Proof.
  revert st. induction ls as [|l ls IH]; intros st; [reflexivity|].
  cbn [fold_left]. now rewrite handleLine_lastByteAt, IH.
Qed.

Lemma fold_handleLine_buf (ls : list (list ascii)) (st : Firmware) :
  buf (fold_left (fun s l => handleLine (cstr l) s) ls st) = buf st.
Proof.
  revert st. induction ls as [|l ls IH]; intros st; [reflexivity|].
  cbn [fold_left]. now rewrite IH, handleLine_keeps_buf.
Qed.

(** X21: a stream of terminated lines arriving on an empty buffer is
    handled line by line, in order, each line once: the state reached is
    the one [handleLine] reaches when called on the lines in turn, with
    the arrival time recorded and the buffer empty again. Empty lines are
    allowed and do nothing. *)
Theorem X21_stream_is_handled_line_by_line (t : Z) (eol : ascii)
    (ls : list (list ascii)) (st : Firmware) :
  buf st = [] -> is_eol eol = true -> forallb line_ok ls = true ->
  ls <> [] ->
  serialReader (stream_of t eol ls) st
  = with_lastByteAt t (fold_left (fun s l => handleLine (cstr l) s) ls st).
Proof.
  intros Hbuf Heol Hls Hne. revert st Hbuf.
  induction ls as [|l ls IH]; intros st Hbuf; [contradiction|].
  cbn [forallb] in Hls. apply andb_true_iff in Hls as [Hl Hls].
  unfold stream_of. cbn [flat_map fold_left]. fold (stream_of t eol ls).
  rewrite serialReader_app, (serialReader_one_line t eol l st Hbuf Hl Heol).
  destruct ls as [|l' ls'] eqn:Els; [reflexivity|]. rewrite <- Els in *.
  rewrite IH.
  - rewrite fold_handleLine_lastByteAt. now destruct (fold_left _ ls _).
  - exact Hls.
  - rewrite Els. discriminate.
  - cbn [buf with_lastByteAt]. now rewrite handleLine_keeps_buf.
Qed.

Lemma X21_stream_is_handled_line_by_line_witness :
  serialReader
    (stream_of 9 "010" [str "N,0,1,255,0,0,0"; str ""; str "N,1,2,0,255,0,0"])
    boot
  = with_lastByteAt 9
      (handleLine (str "N,1,2,0,255,0,0")
         (handleLine (str "") (handleLine (str "N,0,1,255,0,0,0") boot))).
Proof.
  exact (X21_stream_is_handled_line_by_line 9 "010"
           [str "N,0,1,255,0,0,0"; str ""; str "N,1,2,0,255,0,0"] boot
           eq_refl eq_refl eq_refl ltac:(discriminate)).
Defined.

(** * Display updates on every line *)

(** ** What a field reads as *)




(** ** The parser in terms of the fields of the line *)

Lemma parseNLine_on_fields (p : list ascii) (st : Firmware) :
  parseNLine p st =
    match fields_of p with
    | [t0; t1; t2; t3; t4; t5] =>
        if to_uint8 (field_value t0) <? NUM_TUBES
        then (true, update_with (field_value t0) (field_value t1)
                      (field_value t2) (field_value t3) (field_value t4)
                      (field_value t5) st)
        else (false, st)
    | _ => (false, st)
    end.
Proof.
  rewrite parseNLine_unfold, parseNLine_fields. cbv zeta.
  rewrite tl_take. fold (fields_of p).
  destruct (fields_of p) as [|t0 [|t1 [|t2 [|t3 [|t4 [|t5 [|t6 ts]]]]]]];
    reflexivity.
Qed.


(** What an accepted update leaves, field by field. *)
Lemma update_with_display (f0 f1 f2 f3 f4 f5 : Z) (st : Firmware) :
  to_uint8 f0 < NUM_TUBES ->
  let st' := update_with f0 f1 f2 f3 f4 f5 st in
  tubes st' =
    <[Z.to_nat (to_uint8 f0) := tube_of_fields f1 f2 f3 f4 f5]> (tubes st) /\
  gotFirstCommand st' = true /\
  brightness st' = to_uint8 f5 /\
  trace st' = trace st ++ frame (tubes st').
Proof.
  intros Hidx.
  destruct (update_with_fields f0 f1 f2 f3 f4 f5 st Hidx)
    as (Ht & Hg & Hb & Htr).
  cbv zeta in *. repeat split; assumption.
Qed.

(** ** Non-numeric tokens *)



(** ** The dim field *)

(** C9 (as stated, refuted): the accepted line "N,0,5,255,0,0,300" has the
    dim field 300, and the brightness it sets is not 300. *)
Lemma C9_counterexample :
  let st' := handleLine (str "N,0,5,255,0,0,300") boot in
  ~ (gotFirstCommand st' = true ->
     brightness st' = field_value (str "300")).
Proof.
  intros st' H. specialize (H eq_refl). vm_compute in H. discriminate H.
Qed.

(** C9 (amended): every successful display update, besides writing the one
    addressed tube, sets the mode flag and writes its dim field, converted
    to a byte, to the global brightness: the value read modulo 256, which
    is the value itself when it is 0..255. The dim field is not validated:
    whatever token stands in its place, the command succeeds all the
    same. *)
Theorem C9_update_sets_brightness_and_mode (p : list ascii) (st : Firmware) :
  fst (parseNLine p st) = true ->
  let st' := snd (parseNLine p st) in
  exists t0 t1 t2 t3 t4 t5 : list ascii,
    fields_of p = [t0; t1; t2; t3; t4; t5] /\
    to_uint8 (field_value t0) < NUM_TUBES /\
    brightness st' = field_value t5 mod 256 /\
    (0 <= field_value t5 <= 255 -> brightness st' = field_value t5) /\
    gotFirstCommand st' = true /\
    tubes st' =
      <[Z.to_nat (to_uint8 (field_value t0)) :=
          tube_of_fields (field_value t1) (field_value t2) (field_value t3)
            (field_value t4) (field_value t5)]> (tubes st) /\
    dim (tube_of_fields (field_value t1) (field_value t2) (field_value t3)
           (field_value t4) (field_value t5)) = brightness st' /\
    forall (q : list ascii) (other : list ascii),
      fields_of q = [t0; t1; t2; t3; t4; other] ->
      fst (parseNLine q st) = true.
Proof.
  rewrite (parseNLine_on_fields p st).
  destruct (fields_of p) as [|t0 [|t1 [|t2 [|t3 [|t4 [|t5 [|t6 ts]]]]]]];
    try discriminate.
  destruct (to_uint8 (field_value t0) <? NUM_TUBES) eqn:Hidx;
    [|discriminate].
  intros _. cbn [snd]. exists t0, t1, t2, t3, t4, t5.
  pose proof Hidx as Hlt. apply Z.ltb_lt in Hlt.
  destruct (update_with_display (field_value t0) (field_value t1)
              (field_value t2) (field_value t3) (field_value t4)
              (field_value t5) st Hlt) as (Ht & Hg & Hb & _).
  cbv zeta in Ht, Hg, Hb.
  split; [reflexivity|]. split; [exact Hlt|]. split; [exact Hb|].
  split; [intros Hr; rewrite Hb; now apply to_uint8_id|].
  split; [exact Hg|]. split; [exact Ht|]. split; [now rewrite Hb|].
  intros q other Hq. rewrite (parseNLine_on_fields q st), Hq, Hidx.
  reflexivity.
Qed.

Lemma C9_update_sets_brightness_and_mode_witness :
  let st' := snd (parseNLine (str "N,5,9,0,255,255,300") boot) in
  brightness st' = 44 /\ gotFirstCommand st' = true /\
  fst (parseNLine (str "N,5,9,0,255,255,never") boot) = true.
Proof.
  intros st'.
  destruct (C9_update_sets_brightness_and_mode
              (str "N,5,9,0,255,255,300") boot eq_refl)
    as (t0 & t1 & t2 & t3 & t4 & t5 & Hf & _ & Hb & _ & Hg & _ & _ & Hany).
  injection Hf as <- <- <- <- <- <-.
  split; [exact Hb|]. split; [exact Hg|].
  exact (Hany (str "N,5,9,0,255,255,never") (str "never") eq_refl).
Defined.

(** ** Resuming the attract animation *)

Section ResumeAttract.

Variable libc_random : N -> N * N.

(** C6: after a successful display update (mode flag set), the line "A"
    or "a" clears the mode flag, acknowledges, and leaves the tube store
    and the random generator as they are. The attract block that next
    runs with [ATTRACT_MS] or more elapsed since the last tick sets the
    attract brightness and overwrites every tube: tube [i] gets the
    [i]-th of the next six values of the generator, modulo 10, as its
    digit, lit, red, at the attract brightness; the generator has advanced
    by these six calls; the picture is rendered, farthest tube first, and
    latched once. *)
Theorem C6_resume_then_attract_tick (p : list ascii) (a : ascii) (now : Z)
    (st : Firmware) :
  store_ok st ->
  fst (parseNLine p st) = true ->
  a = "A"%char \/ a = "a"%char ->
  let st1 := snd (parseNLine p st) in
  let st2 := handleLine [a] st1 in
  ATTRACT_MS <= ulong_sub now (lastAttract st2) ->
  let st3 := attractTick libc_random now st2 in
  gotFirstCommand st1 = true /\
  gotFirstCommand st2 = false /\
  tubes st2 = tubes st1 /\
  rng st2 = rng st /\
  trace st2 = trace st1 ++ [Println "Attract mode resumed"] /\
  tubes st3 = map attract_tube (fst (draws libc_random 6 (rng st2))) /\
  rng st3 = snd (draws libc_random 6 (rng st2)) /\
  length (tubes st3) = Z.to_nat NUM_TUBES /\
  Forall is_attract_tube (tubes st3) /\
  brightness st3 = ATTRACT_DIM /\
  lastAttract st3 = now /\
  trace st3 =
    trace st2 ++
      [ SetNixie_of (tubes st3 !!! 5%nat); SetNixie_of (tubes st3 !!! 4%nat);
        SetNixie_of (tubes st3 !!! 3%nat); SetNixie_of (tubes st3 !!! 2%nat);
        SetNixie_of (tubes st3 !!! 1%nat); SetNixie_of (tubes st3 !!! 0%nat);
        Latch ] /\
  (buf st = [] ->
   forall t_idle, loop libc_random (mkCycle [] t_idle now) st2 = st3).
Proof.
  intros Hok Hacc Ha st1 st2 Hms st3.
  assert (Hst2 : st2 = println "Attract mode resumed"
                         (with_gotFirstCommand false st1))
    by (apply handleLine_resume, Ha).
  assert (Hg1 : gotFirstCommand st1 = true).
  { destruct (parseNLine_accepted p st Hacc)
      as (f0 & f1 & f2 & f3 & f4 & f5 & Hidx & Heq).
    unfold st1. rewrite Heq.
    now destruct (update_with_fields f0 f1 f2 f3 f4 f5 st Hidx)
      as (_ & Hg & _). }
  pose proof (parseNLine_frame p st) as (_ & _ & _ & Hrng & Hlen1 & _).
  fold st1 in Hrng, Hlen1.
  assert (Hok2 : store_ok st2).
  { rewrite Hst2. unfold store_ok.
    cbn [tubes println emit with_gotFirstCommand]. now rewrite Hlen1. }
  assert (Hst3 : st3 = with_lastAttract now
                         (render (attractFill libc_random tube_indices
                                    (setBrightness ATTRACT_DIM st2)))).
  { apply attractTick_fires; [now rewrite Hst2|exact Hms]. }
  pose proof (attractFill_frame libc_random tube_indices
                (setBrightness ATTRACT_DIM st2))
    as (_ & _ & _ & _ & Hb & Htr & Hlen).
  destruct (attractFill_six libc_random (setBrightness ATTRACT_DIM st2) Hok2)
    as [Hdraw Hrng3].
  cbv zeta in Hdraw, Hrng3.
  split; [exact Hg1|]. split; [now rewrite Hst2|].
  split; [now rewrite Hst2|]. split; [now rewrite Hst2|].
  split; [now rewrite Hst2|].
  split; [rewrite Hst3; exact Hdraw|]. split; [rewrite Hst3; exact Hrng3|].
  split; [rewrite Hst3; cbn [tubes with_lastAttract render emit];
          rewrite Hlen; exact Hok2|].
  split; [rewrite Hst3; now apply attractFill_all|].
  split; [rewrite Hst3; exact Hb|].
  split; [now rewrite Hst3|].
  split.
  - rewrite Hst3 at 1. cbn [trace with_lastAttract render emit].
    rewrite Htr. cbn [trace setBrightness]. f_equal.
    now rewrite Hst3.
  - intros Hbuf t_idle. apply loop_quiet.
    rewrite Hst2. cbn [buf println emit with_gotFirstCommand].
    subst st1. now rewrite parseNLine_keeps_buf.
Qed.

End ResumeAttract.

Lemma C6_resume_then_attract_tick_witness :
  let st := setup demo_random 5 1000 boot in
  let st2 := handleLine [ "A"%char ]
               (snd (parseNLine (str "N,2,5,0,255,0,9") st)) in
  let st3 := attractTick demo_random 1050 st2 in
  tubes st2 !! 2%nat = Some (mkTube 5 0 255 0 true false 9) /\
  brightness st2 = 9 /\
  gotFirstCommand st2 = false /\
  tubes st3 = map attract_tube [0; 7; 4; 1; 8; 5] /\
  brightness st3 = ATTRACT_DIM /\
  loop demo_random (mkCycle [] 1049 1050) st2 = st3.
Proof.
  intros st st2 st3.
  assert (Hms : ATTRACT_MS <= ulong_sub 1050 (lastAttract st2))
    by (vm_compute; discriminate).
  pose proof (C6_resume_then_attract_tick demo_random
                (str "N,2,5,0,255,0,9") "A" 1050 st
                eq_refl eq_refl (or_introl eq_refl) Hms)
    as (_ & Hg & _ & _ & _ & Hdraw & _ & _ & _ & Hb & _ & _ & Hloop).
  split; [reflexivity|]. split; [reflexivity|]. split; [exact Hg|].
  split; [exact Hdraw|]. split; [exact Hb|].
  exact (Hloop eq_refl 1049).
Defined.

(** ** The digits held by the store *)



